(** * MMM-MyScoreboard: the ESPN provider (providers/ESPN.js)

    A shallow embedding of the provider's functions [getLeaguePath],
    [getScores] (the construction of the request), [formatScores],
    [getOrdinal], [getPeriod] and [getFinalOT], followed by the properties
    the specification states about them.

    Conventions of the embedding.
    - A JavaScript string is a [string]; [==] on two strings is [String.eqb],
      [<] on two strings the lexicographic order on character codes.
    - A JavaScript number that the feed gives as an integer (a period
      number) is a [Z]; [%] is [Z.rem], which keeps the sign of the dividend
      as JavaScript does.  The source computes in doubles, which hold the
      integers up to 2^53 - 1 in absolute value exactly; beyond them its
      arithmetic rounds.
    - [null] is [None]; [NaN], as [parseInt] returns it, is [None] too.
    - The date text of a competition is read by [moment] only; the embedding
      holds the instant [moment] makes of it, in milliseconds since the
      epoch.
    - [formatScores] writes into the objects it is given (it sorts
      [data.events] in place when there is no team filter, and it assigns to
      [team.abbreviation]).  The embedding passes that state explicitly:
      [formatGame] returns the game as the call leaves it, and
      [formatScores] returns the data as the call leaves them.  The events
      of a decoded JSON body are distinct objects, so a game is written back
      at its own position only. *)

From Stdlib Require Import ZArith String Ascii List Bool Lia.
From Stdlib Require Import DecimalString DecimalPos DecimalZ Sorted Permutation.
Import ListNotations.

Local Open Scope string_scope.
Local Open Scope Z_scope.

(** ** The JavaScript operations the provider uses *)

Module JS.

(** [String(n)] for an integer [n]: decimal digits, [-] before a negative
    number (what JavaScript prints for an integer below 10^21 in absolute
    value). *)
Definition numToString (n : Z) : string :=
  NilZero.string_of_int (Z.to_int n).

(** [s.indexOf(sub)]: the position of the first occurrence of [sub] in [s],
    [-1] when there is none. *)
Fixpoint indexOfFrom (i : Z) (sub s : string) : Z :=
  if prefix sub s then i
  else match s with
       | EmptyString => -1
       | String _ s' => indexOfFrom (i + 1) sub s'
       end.

Definition indexOf (s sub : string) : Z := indexOfFrom 0 sub s.

(** [arr.indexOf(x)] on an array of strings. *)
Fixpoint arrayIndexOfFrom (i : Z) (x : string) (arr : list string) : Z :=
  match arr with
  | [] => -1
  | y :: arr' => if String.eqb y x then i else arrayIndexOfFrom (i + 1) x arr'
  end.

Definition arrayIndexOf (arr : list string) (x : string) : Z :=
  arrayIndexOfFrom 0 x arr.

(** [a < b] on two strings. *)
Definition strLt (a b : string) : bool := String.ltb a b.

(** [null] in a string concatenation reads "null". *)
Definition nullable (o : option string) : string :=
  match o with
  | Some s => s
  | None => "null"
  end.

(** [parseInt(s)]: leading white space is skipped, then an optional sign, an
    optional [0x] prefix, and the longest run of digits; no digit gives
    [NaN]. *)
Definition isWhiteSpace (c : ascii) : bool :=
  let n := N_of_ascii c in
  ((9 <=? n) && (n <=? 13) || (n =? 32) || (n =? 160))%N.

Fixpoint skipWhiteSpace (s : string) : string :=
  match s with
  | String c s' => if isWhiteSpace c then skipWhiteSpace s' else s
  | EmptyString => s
  end.

Definition digitValue (c : ascii) : option Z :=
  let n := Z.of_N (N_of_ascii c) in
  if (48 <=? n) && (n <=? 57) then Some (n - 48)
  else if (97 <=? n) && (n <=? 102) then Some (n - 87)
  else if (65 <=? n) && (n <=? 70) then Some (n - 55)
  else None.

Fixpoint readDigits (radix : Z) (acc : option Z) (s : string) : option Z :=
  match s with
  | EmptyString => acc
  | String c s' =>
      match digitValue c with
      | Some d =>
          if d <? radix
          then readDigits radix
                 (Some (radix * match acc with Some a => a | None => 0 end + d)) s'
          else acc
      | None => acc
      end
  end.

Definition readUnsigned (s : string) : option Z :=
  match s with
  | String "0" (String "x" s') => readDigits 16 None s'
  | String "0" (String "X" s') => readDigits 16 None s'
  | _ => readDigits 10 None s
  end.

Definition parseInt (s : string) : option Z :=
  match skipWhiteSpace s with
  | String "-" s' => option_map Z.opp (readUnsigned s')
  | String "+" s' => readUnsigned s'
  | s' => readUnsigned s'
  end.

(** [arr.sort(cmp)]: a stable sort; [cmp x y > 0] asks for [y] before [x].
    An element is put before the first element of the sorted rest that it
    need not follow, so that elements [cmp] calls equal keep their order. *)
Section Sort.
Context {A : Type}.
Variable cmp : A -> A -> Z.

Fixpoint insertSorted (x : A) (l : list A) : list A :=
  match l with
  | [] => [x]
  | y :: l' => if cmp x y <=? 0 then x :: l else y :: insertSorted x l'
  end.

Fixpoint sort (l : list A) : list A :=
  match l with
  | [] => []
  | x :: l' => insertSorted x (sort l')
  end.
End Sort.

End JS.

(** ** moment: formatting an instant *)

(** A time zone gives the offset from UTC, in minutes, that is in force at
    an instant. *)
Record TimeZone := mkTimeZone { utcOffset : Z -> Z }.

Definition pad2 (n : Z) : string :=
  if n <? 10 then "0" ++ JS.numToString n else JS.numToString n.

Definition pad4 (n : Z) : string :=
  if n <? 10 then "000" ++ JS.numToString n
  else if n <? 100 then "00" ++ JS.numToString n
  else if n <? 1000 then "0" ++ JS.numToString n
  else JS.numToString n.

(** [moment(date).tz(zone).format("h:mm a")] *)
Definition formatLocalTime (zone : TimeZone) (instant : Z) : string :=
  let minuteOfDay := (instant / 60000 + utcOffset zone instant) mod 1440 in
  let hour := minuteOfDay / 60 in
  let h12 := if hour mod 12 =? 0 then 12 else hour mod 12 in
  JS.numToString h12 ++ ":" ++ pad2 (minuteOfDay mod 60) ++ " "
    ++ (if hour <? 12 then "am" else "pm").

(** The calendar day [moment(gameDate)] stands for. *)
Record CalendarDate := mkCalendarDate { year : Z; month : Z; day : Z }.

(** [moment(gameDate).format("YYYYMMDD")] *)
Definition formatYYYYMMDD (d : CalendarDate) : string :=
  pad4 (year d) ++ pad2 (month d) ++ pad2 (day d).

(** ** Leagues and the request *)

Definition getLeaguePath (league : string) : option string :=
  if String.eqb league "NCAAF" then Some "football/college-football"
  else if String.eqb league "NBA" then Some "basketball/nba"
  else if String.eqb league "NCAAM" then Some "basketball/mens-college-basketball"
  else None.

(** The leagues [getLeaguePath] knows. *)
Definition supportedLeague (league : string) : bool :=
  String.eqb league "NCAAF" || String.eqb league "NBA" || String.eqb league "NCAAM".

(** What the first statements of [getScores] come to: either an exception
    is thrown, or [request] is called with a URL and the method GET. *)
Inductive ProviderError :=
| UnsupportedLeagueError.

Inductive RequestOutcome :=
| Thrown (e : ProviderError)
| Requested (url : string).

Definition scoreboardUrl (league : string) (gameDate : CalendarDate) : string :=
  "http://site.api.espn.com/apis/site/v2/sports/"
    ++ JS.nullable (getLeaguePath league)
    ++ "/scoreboard?dates="
    ++ formatYYYYMMDD gameDate ++ "&limit=200".

Definition getScoresRequest (league : string) (gameDate : CalendarDate)
  : RequestOutcome :=
  Requested (scoreboardUrl league gameDate).

(** ** Period labels *)

Definition getOrdinal (p : Z) : string :=
  let mod10 := Z.rem p 10 in
  let mod100 := Z.rem p 100 in
  if (mod10 =? 1) && negb (mod100 =? 11) then JS.numToString p ++ "<sup>ST</sup>"
  else if (mod10 =? 2) && negb (mod100 =? 12) then JS.numToString p ++ "<sup>ND</sup>"
  else if (mod10 =? 3) && negb (mod100 =? 13) then JS.numToString p ++ "<sup>RD</sup>"
  else JS.numToString p ++ "<sup>TH</sup>".

(** The three [case] labels of the [switch] in [getPeriod] and in
    [getFinalOT]. *)
Definition overtimeLeague (league : string) : bool :=
  String.eqb league "NCAAF" || String.eqb league "NCAAM" || String.eqb league "NBA".

Definition getPeriod (league : string) (p : Z) : string :=
  if overtimeLeague league then
    if p =? 5 then "OT"
    else if p >? 5 then JS.numToString (p - 4) ++ "OT"
    else getOrdinal p
  else getOrdinal p.

Definition getFinalOT (league : string) (p : Z) : string :=
  if overtimeLeague league then
    if p =? 5 then " (OT)"
    else if p >? 5 then " (" ++ JS.numToString (p - 4) ++ "OT)"
    else ""
  else "".

(** ** The feed *)

Record Team := mkTeam {
  abbreviation : string;
  location : string;
  shortDisplayName : string
}.

Record Competitor := mkCompetitor {
  homeAway : string;
  team : Team;
  score : string
}.

(** [competitions[0]] of an event, with [competitors[0]] and
    [competitors[1]]. *)
Record Competition := mkCompetition {
  date : Z;
  competitor0 : Competitor;
  competitor1 : Competitor
}.

(** [game.status], with [type_id] for [status.type.id]. *)
Record GameStatus := mkGameStatus {
  type_id : string;
  period : Z;
  displayClock : string
}.

Record Game := mkGame {
  competition : Competition;
  status : GameStatus
}.

Record Data := mkData { events : list Game }.

(** The assignment [c.team.abbreviation = a]. *)
Definition setAbbreviation (c : Competitor) (a : string) : Competitor :=
  mkCompetitor (homeAway c)
    (mkTeam a (location (team c)) (shortDisplayName (team c)))
    (score c).

Definition setCompetitors (game : Game) (c0 c1 : Competitor) : Game :=
  mkGame (mkCompetition (date (competition game)) c0 c1) (status game).

(** ** The formatted games *)

(** The three values [gameMode] takes. *)
Inductive GameState := SCHEDULED | LIVE | FINAL.

Definition gameStateCode (s : GameState) : Z :=
  match s with
  | SCHEDULED => 0
  | LIVE => 1
  | FINAL => 2
  end.

Module Formatted.
Record t := mk {
  classes : list string;
  gameMode : Z;
  hTeam : string;
  vTeam : string;
  hTeamLong : string;
  vTeamLong : string;
  hScore : option Z;
  vScore : option Z;
  status : list string;
  usePngLogos : bool
}.
End Formatted.
Definition FormattedGame : Type := Formatted.t.

(** ** formatScores *)

(** The filter of [formatScores] when [teams] is not [null]. *)
Definition teamsInclude (teams : list string) (game : Game) : bool :=
  negb (JS.arrayIndexOf teams (abbreviation (team (competitor0 (competition game)))) =? -1)
  || negb (JS.arrayIndexOf teams (abbreviation (team (competitor1 (competition game)))) =? -1).

(** The short code of the away team, as the comparison reads it. *)
Definition awayAbbreviation (game : Game) : string :=
  if String.eqb (homeAway (competitor0 (competition game))) "away"
  then abbreviation (team (competitor0 (competition game)))
  else abbreviation (team (competitor1 (competition game))).

(** The function given to [sort]: by start time, then by away team short
    code. *)
Definition compareGames (a b : Game) : Z :=
  let aTime := date (competition a) in
  let bTime := date (competition b) in
  if aTime <? bTime then -1
  else if aTime >? bTime then 1
  else
    let aTteam := awayAbbreviation a in
    let bTteam := awayAbbreviation b in
    if JS.strLt aTteam bTteam then -1
    else if JS.strLt bTteam aTteam then 1
    else 0.

(** The [switch] on [game.status.type.id]: the game state, the classes and
    the status lines.  In the case of a delay the source has
    [classes.push["delay"]], which reads a property of the function
    [classes.push] and calls nothing: [classes] stays empty. *)
Definition statusOf (league : string) (localTZ : TimeZone) (game : Game)
  : Z * list string * list string :=
  let id := type_id (status game) in
  let idIs (s : string) := String.eqb id s in
  if idIs "0" then (0, [], ["TBD"])
  else if idIs "1" then
    (0, [], [formatLocalTime localTZ (date (competition game))])
  else if idIs "2" || idIs "21" || idIs "24" then
    (1, [], [displayClock (status game); getPeriod league (period (status game))])
  else if idIs "3" then
    (2, [], ["Final" ++ getFinalOT league (period (status game))])
  else if idIs "4" || idIs "9" || idIs "10" then (0, [], ["Forfeit"])
  else if idIs "5" then (0, [], ["Cancelled"])
  else if idIs "6" then (0, [], ["Postponed"])
  else if idIs "7" || idIs "17" then (1, [], ["Delay"])
  else if idIs "8" then (0, [], ["Suspended"])
  else if idIs "22" then
    (1, [], ["END"; getPeriod league (period (status game))])
  else if idIs "23" then (1, [], ["HALFTIME"])
  else (0, [], [formatLocalTime localTZ (date (competition game))]).

(** The condition of the SDSU rule on one competitor. *)
Definition isSouthDakotaState (league : string) (c : Competitor) : bool :=
  String.eqb league "NCAAF"
  && String.eqb (abbreviation (team c)) "SDSU"
  && negb (JS.indexOf (location (team c)) "South Dakota State" =? -1).

(** The prefix of the long team names. *)
Definition longName (league : string) (c : Competitor) : string :=
  (if String.eqb league "NCAAF" || String.eqb league "NCAAM"
   then abbreviation (team c) ++ " " else "")
  ++ shortDisplayName (team c).

(** The body of the [forEach]: the formatted game, and the game as the
    assignment to [team.abbreviation] leaves it. *)
Definition formatGame (league : string) (localTZ : TimeZone) (game : Game)
  : FormattedGame * Game :=
  let '(gameState, classes, status) := statusOf league localTZ game in
  let c0 := competitor0 (competition game) in
  let c1 := competitor1 (competition game) in
  let away0 := String.eqb (homeAway c0) "away" in
  let hTeamData := if away0 then c1 else c0 in
  let vTeamData := if away0 then c0 else c1 in
  let '(hTeamData, vTeamData) :=
    if isSouthDakotaState league hTeamData
    then (setAbbreviation hTeamData "SDSU ", vTeamData)
    else if isSouthDakotaState league vTeamData
    then (hTeamData, setAbbreviation vTeamData "SDSU ")
    else (hTeamData, vTeamData) in
  (Formatted.mk classes gameState
     (abbreviation (team hTeamData))
     (abbreviation (team vTeamData))
     (longName league hTeamData)
     (longName league vTeamData)
     (JS.parseInt (score hTeamData))
     (JS.parseInt (score vTeamData))
     status
     true,
   if away0 then setCompetitors game vTeamData hTeamData
   else setCompetitors game hTeamData vTeamData).

(** [formatScores(league, data, teams)], with the time zone
    [moment.tz.guess()] finds as an argument.  The result is the list
    returned and the data as the call leaves them: without a filter
    [data.events] itself is sorted and its games are written; with a filter
    the sorted array is a new one, [data.events] keeps its order, and the
    games that passed the filter are written. *)
Definition formatScores (league : string) (localTZ : TimeZone) (data : Data)
  (teams : option (list string)) : list FormattedGame * Data :=
  match teams with
  | Some ts =>
      let filteredGamesList :=
        JS.sort compareGames (filter (teamsInclude ts) (events data)) in
      (map (fun game => fst (formatGame league localTZ game)) filteredGamesList,
       mkData (map (fun game =>
                      if teamsInclude ts game
                      then snd (formatGame league localTZ game)
                      else game)
                   (events data)))
  | None =>
      let filteredGamesList := JS.sort compareGames (events data) in
      (map (fun game => fst (formatGame league localTZ game)) filteredGamesList,
       mkData (map (fun game => snd (formatGame league localTZ game))
                   filteredGamesList))
  end.

(** The games [formatScores] formats, in the order it formats them. *)
Definition survivingGames (data : Data) (teams : option (list string))
  : list Game :=
  match teams with
  | Some ts => JS.sort compareGames (filter (teamsInclude ts) (events data))
  | None => JS.sort compareGames (events data)
  end.

(** Two calls in sequence on the same [data] object: the second call reads
    the data as the first one left them. *)
Definition formatScoresTwice (league : string) (localTZ : TimeZone)
  (data : Data) (teams : option (list string))
  : list FormattedGame * list FormattedGame :=
  let '(first, data1) := formatScores league localTZ data teams in
  let '(second, _) := formatScores league localTZ data1 teams in
  (first, second).

(** ** Notions the properties are stated with *)

(** The home and the visiting competitor of a game, as lines 216-226 of the
    source choose them. *)
Definition homeCompetitor (game : Game) : Competitor :=
  if String.eqb (homeAway (competitor0 (competition game))) "away"
  then competitor1 (competition game)
  else competitor0 (competition game).

Definition visitingCompetitor (game : Game) : Competitor :=
  if String.eqb (homeAway (competitor0 (competition game))) "away"
  then competitor0 (competition game)
  else competitor1 (competition game).

(** The SDSU rule fires on a game. *)
Definition overrideApplies (league : string) (game : Game) : bool :=
  isSouthDakotaState league (competitor0 (competition game))
  || isSouthDakotaState league (competitor1 (competition game)).

(** The same game with its two competitors listed in the other order. *)
Definition swapCompetitors (game : Game) : Game :=
  setCompetitors game (competitor1 (competition game))
    (competitor0 (competition game)).

(** The order of the output: earlier start first, and at equal start the
    away short codes in lexicographic order. *)
Definition gameOrder (a b : Game) : Prop :=
  date (competition a) < date (competition b)
  \/ (date (competition a) = date (competition b)
      /\ String.leb (awayAbbreviation a) (awayAbbreviation b) = true).

(** [x] need not come after [y] for the comparison function [cmp]. *)
Definition notAfter {A : Type} (cmp : A -> A -> Z) (x y : A) : Prop :=
  cmp x y <= 0.

(** The English ordinal of the specification, in its words: "if n mod 10 ==
    1 and n mod 100 != 11 -> Nst; == 2 and not 12 -> Nnd; == 3 and not 13
    -> Nrd; else -> Nth". *)
Definition ordinalSuffix (n : Z) : string :=
  if (n mod 10 =? 1) && negb (n mod 100 =? 11) then "st"
  else if (n mod 10 =? 2) && negb (n mod 100 =? 12) then "nd"
  else if (n mod 10 =? 3) && negb (n mod 100 =? 13) then "rd"
  else "th".

Definition englishOrdinal (n : Z) : string :=
  JS.numToString n ++ ordinalSuffix n.

(** A label with its markup dropped and its letters in lower case: what is
    between [<] and [>] is left out, [A]..[Z] become [a]..[z]. *)
Definition lowerCase (c : ascii) : ascii :=
  let n := N_of_ascii c in
  if ((65 <=? n) && (n <=? 90))%N then ascii_of_N (n + 32) else c.

Fixpoint plainFrom (inTag : bool) (s : string) : string :=
  match s with
  | EmptyString => EmptyString
  | String c s' =>
      if inTag then plainFrom (negb (Ascii.eqb c ">")) s'
      else if Ascii.eqb c "<" then plainFrom true s'
      else String (lowerCase c) (plainFrom false s')
  end.

Definition plainLabel (s : string) : string := plainFrom false s.

(** The characters [plainLabel] keeps as they are: not [<], not a capital
    letter. *)
Definition keptChar (c : ascii) : bool :=
  negb (Ascii.eqb c "<") && Ascii.eqb (lowerCase c) c.

Fixpoint keptString (s : string) : bool :=
  match s with
  | EmptyString => true
  | String c s' => keptChar c && keptString s'
  end.

(** ** Sample data *)

Module Sample.

Definition utc : TimeZone := mkTimeZone (fun _ => 0).

Definition competitor (flag abbr loc name pts : string) : Competitor :=
  mkCompetitor flag (mkTeam abbr loc name) pts.

Definition jackrabbits (flag : string) : Competitor :=
  competitor flag "SDSU" "South Dakota State" "S Dakota St" "21".

Definition aztecs (flag : string) : Competitor :=
  competitor flag "SDSU" "San Diego State" "San Diego St" "17".

Definition bison (flag : string) : Competitor :=
  competitor flag "NDSU" "North Dakota State" "N Dakota St" "14".

Definition lakers (flag : string) : Competitor :=
  competitor flag "LAL" "Los Angeles" "Lakers" "101".

Definition celtics (flag : string) : Competitor :=
  competitor flag "BOS" "Boston" "Celtics" "99".

(** 2 November 2019, 16:00 UTC. *)
Definition kickoff : Z := 1572710400000.

Definition game (c0 c1 : Competitor) (id : string) (p : Z) : Game :=
  mkGame (mkCompetition kickoff c0 c1) (mkGameStatus id p "7:42").

(** Both sides meet the condition of the SDSU rule. *)
Definition bothJackrabbits : Game :=
  game (jackrabbits "home") (jackrabbits "away") "2" 3.

(** The away team is listed first, the home team is South Dakota State. *)
Definition bisonAtJackrabbits : Game :=
  game (bison "away") (jackrabbits "home") "2" 3.

(** The home team is listed first. *)
Definition bisonAtJackrabbitsHomeFirst : Game :=
  game (jackrabbits "home") (bison "away") "2" 3.

Definition celticsAtLakers (id : string) (p : Z) : Game :=
  game (lakers "home") (celtics "away") id p.

Definition celticsAtLakersAwayFirst : Game :=
  game (celtics "away") (lakers "home") "2" 3.

Definition saturday : CalendarDate := mkCalendarDate 2019 11 2.

(** A feed of one game, and the filter of a follower of SDSU. *)
Definition jackrabbitsFeed : Data := mkData [bisonAtJackrabbitsHomeFirst].

Definition followSDSU : option (list string) := Some ["SDSU"].

Definition lakersFeed : Data :=
  mkData [celticsAtLakers "3" 6; celticsAtLakersAwayFirst].

(** Two games with the same start, South Dakota State and San Diego State
    both visiting; and a later game listed first. *)
Definition jackrabbitsAtBison : Game :=
  game (bison "home") (jackrabbits "away") "1" 0.

Definition aztecsAtBison : Game :=
  game (bison "home") (aztecs "away") "1" 0.

Definition lateGame : Game :=
  mkGame (mkCompetition (kickoff + 3600000) (bison "home") (aztecs "away"))
    (mkGameStatus "1" 0 "0:00").

Definition saturdayFeed : Data :=
  mkData [lateGame; jackrabbitsAtBison; aztecsAtBison].

End Sample.

(** ** The answer to the request *)

(** What [request] gives its callback in [getScores]: the transport error
    ([null] when there is none), the status code and the body. *)
Record Response := mkResponse {
  r_err : option string;
  statusCode : Z;
  body : string
}.

(** What the decoder hands over for a body that is JSON: a feed of the
    shape [formatScores] reads, or a value whose [events] is not an array
    (no such property, as in [{}], or [null], a number, a text, an object).
    A value with an [events] array whose games lack fields is neither, and
    is not covered. *)
Inductive Content :=
| Feed (data : Data)
| NoEventsArray.

(** What the callback of [request] does in the end: it writes one line to
    the console, or it calls the [callback] of [getScores] with the list
    [formatScores] returns, or [formatScores] throws before there is a list
    (a [TypeError], where [data.events.filter] or [filteredGamesList.sort]
    is called on what is not an array) and the [callback] is not reached. *)
Inductive Effect :=
| ConsoleLog (line : string)
| Callback (games : list Formatted.t)
| TypeErrorThrown.

(** Lines 67-83 of the source.  [parseJSON] is the decoder (its error or
    the decoded content), [now] the text of [moment().format("D-MMM-YY
    HH:mm")]. *)
Definition onResponse (parseJSON : string -> string + Content) (now : string)
  (league : string) (teams : option (list string)) (localTZ : TimeZone)
  (response : Response) : Effect :=
  if match r_err response with None => true | Some _ => false end
     && (statusCode response =? 200)
  then
    match parseJSON (body response) with
    | inl p_err =>
        ConsoleLog ("[MMM-MyScoreboard] " ++ now
                    ++ " ** ERROR ** Couldn't parse " ++ league
                    ++ " data for provider ESPN: " ++ p_err)
    | inr (Feed content) =>
        Callback (fst (formatScores league localTZ content teams))
    | inr NoEventsArray => TypeErrorThrown
    end
  else
    ConsoleLog ("[MMM-MyScoreboard] " ++ now
                ++ " ** ERROR ** Couldn't retrieve " ++ league
                ++ " data for provider ESPN: " ++ JS.nullable (r_err response)).

(** ** More notions for the properties *)

(** No two games of a list have both the same start and the same away
    short code. *)
Definition distinctKeys (games : list Game) : Prop :=
  forall a b,
    In a games -> In b games ->
    date (competition a) = date (competition b) ->
    awayAbbreviation a = awayAbbreviation b ->
    a = b.

(** The status ids of a game in progress, and those with a period line. *)
Definition liveIds : list string := ["2"; "21"; "24"; "7"; "17"; "22"; "23"].

Definition periodIds : list string := ["2"; "21"; "24"; "22"].

(** A decoder for the samples: a body that reads "feed" decodes to the
    Lakers' feed, the body of an empty object to a value without events,
    any other body is an error. *)
Definition sampleDecoder (body : string) : string + Content :=
  if String.eqb body "feed" then inr (Feed Sample.lakersFeed)
  else if String.eqb body "{}" then inr NoEventsArray
  else inl "SyntaxError: Unexpected token".

(** The integers a JavaScript number holds exactly, and prints in full:
    up to 2^53 - 1 in absolute value. *)
Definition maxSafeInteger : Z := 9007199254740991.

Definition safeInteger (n : Z) : Prop :=
  - maxSafeInteger <= n <= maxSafeInteger.

(** * Properties *)

(** ** Strings *)

Lemma ascii_compare_refl (c : ascii) : Ascii.compare c c = Eq.
Proof. unfold Ascii.compare. apply N.compare_refl. Qed.

Lemma string_compare_refl (s : string) : String.compare s s = Eq.
Proof.
  induction s as [|c s IH]; simpl; [reflexivity|].
  now rewrite ascii_compare_refl.
Qed.

Lemma string_ltb_irrefl (s : string) : String.ltb s s = false.
Proof. unfold String.ltb. now rewrite string_compare_refl. Qed.

Lemma string_leb_refl (s : string) : String.leb s s = true.
Proof. unfold String.leb. now rewrite string_compare_refl. Qed.

Lemma string_leb_trans (a b c : string) :
  String.leb a b = true -> String.leb b c = true -> String.leb a c = true.
Proof.
  unfold String.leb. revert b c.
  induction a as [|x a IH]; intros [|y b] [|z c]; simpl; try congruence.
  intros Hab Hbc.
  destruct (Ascii.compare x y) eqn:Exy; try discriminate;
    destruct (Ascii.compare y z) eqn:Eyz; try discriminate.
  - apply Ascii.compare_eq_iff in Exy, Eyz. subst.
    rewrite ascii_compare_refl. now apply IH with b.
  - apply Ascii.compare_eq_iff in Exy. subst. now rewrite Eyz.
  - apply Ascii.compare_eq_iff in Eyz. subst. now rewrite Exy.
  - unfold Ascii.compare in *.
    rewrite N.compare_lt_iff in Exy, Eyz.
    assert (H : (N_of_ascii x < N_of_ascii z)%N) by lia.
    apply N.compare_lt_iff in H. now rewrite H.
Qed.

(** [leb] is what the two tests of the comparison function come to. *)
Lemma string_leb_ltb (a b : string) :
  String.leb a b = (String.ltb a b || negb (String.ltb b a)).
Proof.
  unfold String.leb, String.ltb. rewrite (String.compare_antisym a b).
  now destruct (String.compare b a).
Qed.

Lemma string_ltb_leb (a b : string) :
  String.ltb a b = true -> String.leb a b = true.
Proof. rewrite string_leb_ltb. now intros ->. Qed.

(** ** Arrays *)

Lemma arrayIndexOfFrom_found (x : string) (arr : list string) (i : Z) :
  0 <= i -> JS.arrayIndexOfFrom i x arr = -1 <-> ~ In x arr.
Proof.
  revert i. induction arr as [|y arr IH]; intros i Hi; simpl.
  - tauto.
  - destruct (String.eqb_spec y x) as [->|Hne].
    + split; [lia | tauto].
    + rewrite IH by lia. tauto.
Qed.

Lemma arrayIndexOf_In (arr : list string) (x : string) :
  negb (JS.arrayIndexOf arr x =? -1) = true <-> In x arr.
Proof.
  unfold JS.arrayIndexOf. rewrite negb_true_iff, Z.eqb_neq.
  rewrite (arrayIndexOfFrom_found x arr 0) by lia.
  destruct (in_dec string_dec x arr); tauto.
Qed.

Section SortFacts.
Context {A : Type}.
Variable cmp : A -> A -> Z.

Lemma insertSorted_perm (x : A) (l : list A) :
  Permutation (JS.insertSorted cmp x l) (x :: l).
Proof.
  induction l as [|y l IH]; simpl; [reflexivity|].
  destruct (cmp x y <=? 0); [reflexivity|].
  rewrite IH. apply perm_swap.
Qed.

Lemma sort_perm (l : list A) : Permutation (JS.sort cmp l) l.
Proof.
  induction l as [|x l IH]; simpl; [reflexivity|].
  rewrite insertSorted_perm. now constructor.
Qed.

Lemma sort_In (l : list A) (x : A) : In x (JS.sort cmp l) <-> In x l.
Proof.
  split; apply Permutation_in; [|symmetry]; apply sort_perm.
Qed.

(** A list that is in order already is left as it is. *)
Lemma sort_sorted_id (l : list A) :
  StronglySorted (notAfter cmp) l -> JS.sort cmp l = l.
Proof.
  induction 1 as [|x l Hl IH Hx]; simpl; [reflexivity|].
  rewrite IH. destruct Hx as [|y l Hxy _]; simpl; [reflexivity|].
  unfold notAfter in Hxy. apply Z.leb_le in Hxy. now rewrite Hxy.
Qed.

Hypothesis cmp_total : forall x y, notAfter cmp x y \/ notAfter cmp y x.
Hypothesis cmp_trans :
  forall x y z, notAfter cmp x y -> notAfter cmp y z -> notAfter cmp x z.

Lemma insertSorted_sorted (x : A) (l : list A) :
  StronglySorted (notAfter cmp) l ->
  StronglySorted (notAfter cmp) (JS.insertSorted cmp x l).
Proof.
  induction 1 as [|y l Hl IH Hy]; simpl.
  - repeat constructor.
  - destruct (cmp x y <=? 0) eqn:E.
    + apply Z.leb_le in E. constructor; [now constructor|].
      constructor; [exact E|].
      eapply Forall_impl; [|exact Hy]. intros z Hz.
      now apply cmp_trans with y.
    + apply Z.leb_gt in E. constructor; [exact IH|].
      rewrite insertSorted_perm. constructor; [|exact Hy].
      destruct (cmp_total x y) as [H|H]; [unfold notAfter in H; lia|exact H].
Qed.

Lemma sort_sorted (l : list A) : StronglySorted (notAfter cmp) (JS.sort cmp l).
Proof.
  induction l as [|x l IH]; simpl; [constructor|].
  now apply insertSorted_sorted.
Qed.

Lemma sort_idempotent (l : list A) :
  JS.sort cmp (JS.sort cmp l) = JS.sort cmp l.
Proof. apply sort_sorted_id, sort_sorted. Qed.
End SortFacts.

(** ** The comparison function of the sort *)

Lemma compareGames_gameOrder (a b : Game) :
  notAfter compareGames a b <-> gameOrder a b.
Proof.
  unfold notAfter, gameOrder, compareGames, JS.strLt.
  rewrite string_leb_ltb.
  destruct (Z.ltb_spec (date (competition a)) (date (competition b))) as [Hlt|Hge].
  - split; [intros _; now left | lia].
  - destruct (Z.gtb_spec (date (competition a)) (date (competition b))) as [Hgt|Hle].
    + split; [lia | intros [H|[H _]]; lia].
    + destruct (String.ltb (awayAbbreviation a) (awayAbbreviation b)) eqn:Eab.
      * split; [intros _; right; split; [lia | reflexivity] | lia].
      * destruct (String.ltb (awayAbbreviation b) (awayAbbreviation a)) eqn:Eba;
          simpl.
        -- split; [lia | intros [H|[_ H]]; [lia | discriminate]].
        -- split; [intros _; right; split; [lia | reflexivity] | lia].
Qed.

Lemma gameOrder_total (a b : Game) : gameOrder a b \/ gameOrder b a.
Proof.
  unfold gameOrder.
  destruct (Z.lt_trichotomy (date (competition a)) (date (competition b)))
    as [H|[H|H]]; [tauto| |tauto].
  destruct (String.leb_total (awayAbbreviation a) (awayAbbreviation b));
    [left|right]; right; split; congruence.
Qed.

Lemma gameOrder_trans (a b c : Game) :
  gameOrder a b -> gameOrder b c -> gameOrder a c.
Proof.
  unfold gameOrder. intros [H1|[H1 L1]] [H2|[H2 L2]]; try (left; lia).
  right. split; [lia|]. now apply string_leb_trans with (awayAbbreviation b).
Qed.

Lemma compareGames_total (a b : Game) :
  notAfter compareGames a b \/ notAfter compareGames b a.
Proof. rewrite !compareGames_gameOrder. apply gameOrder_total. Qed.

Lemma compareGames_trans (a b c : Game) :
  notAfter compareGames a b -> notAfter compareGames b c ->
  notAfter compareGames a c.
Proof. rewrite !compareGames_gameOrder. apply gameOrder_trans. Qed.

Lemma survivingGames_sorted (data : Data) (teams : option (list string)) :
  StronglySorted gameOrder (survivingGames data teams).
Proof.
  assert (H : forall l, StronglySorted gameOrder (JS.sort compareGames l)).
  { intros l.
    pose proof (sort_sorted compareGames compareGames_total compareGames_trans l)
      as Hs.
    induction Hs as [|x s Hs IH Hx]; constructor; [exact IH|].
    eapply Forall_impl; [|exact Hx]. intros y. apply compareGames_gameOrder. }
  destruct teams; apply H.
Qed.

(** ** One game *)

Lemma formatScores_output (league : string) (localTZ : TimeZone) (data : Data)
  (teams : option (list string)) :
  fst (formatScores league localTZ data teams)
  = map (fun game => fst (formatGame league localTZ game))
      (survivingGames data teams).
Proof. destruct teams; reflexivity. Qed.

(** The team fields of a formatted game. *)
Lemma formatGame_teams (league : string) (localTZ : TimeZone) (game : Game) :
  let h := homeCompetitor game in
  let v := visitingCompetitor game in
  let fg := fst (formatGame league localTZ game) in
  Formatted.hTeam fg
  = (if isSouthDakotaState league h then "SDSU " else abbreviation (team h))
  /\ Formatted.vTeam fg
     = (if negb (isSouthDakotaState league h) && isSouthDakotaState league v
        then "SDSU " else abbreviation (team v)).
Proof.
  unfold formatGame, homeCompetitor, visitingCompetitor.
  destruct (statusOf league localTZ game) as [[gameState classes] lines].
  destruct (String.eqb (homeAway (competitor0 (competition game))) "away");
    cbv zeta;
    match goal with
    | |- context [isSouthDakotaState league ?h] =>
        destruct (isSouthDakotaState league h)
    end; simpl;
    try match goal with
    | |- context [isSouthDakotaState league ?v] =>
        destruct (isSouthDakotaState league v)
    end; simpl; auto.
Qed.

(** The status lines, the game state and the classes of a formatted game
    are those of the [switch]. *)
Lemma formatGame_status (league : string) (localTZ : TimeZone) (game : Game) :
  let fg := fst (formatGame league localTZ game) in
  (Formatted.gameMode fg, Formatted.classes fg, Formatted.status fg)
  = statusOf league localTZ game.
Proof.
  unfold formatGame.
  destruct (statusOf league localTZ game) as [[gameState classes] lines].
  destruct (String.eqb (homeAway (competitor0 (competition game))) "away");
    cbv zeta;
    match goal with
    | |- context [isSouthDakotaState league ?h] =>
        destruct (isSouthDakotaState league h)
    end; simpl;
    try match goal with
    | |- context [isSouthDakotaState league ?v] =>
        destruct (isSouthDakotaState league v)
    end; reflexivity.
Qed.

(** A game the SDSU rule does not fire on is left as it was. *)
Lemma formatGame_unchanged (league : string) (localTZ : TimeZone) (game : Game) :
  overrideApplies league game = false ->
  snd (formatGame league localTZ game) = game.
Proof.
  unfold overrideApplies. intros H. apply orb_false_elim in H as [H0 H1].
  unfold formatGame.
  destruct (statusOf league localTZ game) as [[gameState classes] lines].
  destruct game as [[d c0 c1] st]. simpl in *.
  destruct (String.eqb (homeAway c0) "away"); rewrite H0, H1; reflexivity.
Qed.

Lemma overtimeLeague_supported (league : string) :
  overtimeLeague league = supportedLeague league.
Proof.
  unfold overtimeLeague, supportedLeague.
  destruct (String.eqb league "NCAAF"), (String.eqb league "NBA"),
    (String.eqb league "NCAAM"); reflexivity.
Qed.

(** ** The SDSU rule (C1) *)

(** C1 as the specification states it fails: in an NCAAF game whose home and
    visiting competitor both have the short code SDSU and a location with
    South Dakota State in it, only the home short code is rewritten; the
    visiting one is emitted without the trailing space. *)
Lemma sdsu_both_sides_counterexample :
  isSouthDakotaState "NCAAF" (homeCompetitor Sample.bothJackrabbits) = true
  /\ isSouthDakotaState "NCAAF" (visitingCompetitor Sample.bothJackrabbits) = true
  /\ Formatted.hTeam (fst (formatGame "NCAAF" Sample.utc Sample.bothJackrabbits))
     = "SDSU "
  /\ Formatted.vTeam (fst (formatGame "NCAAF" Sample.utc Sample.bothJackrabbits))
     = "SDSU"
  /\ Formatted.vTeam (fst (formatGame "NCAAF" Sample.utc Sample.bothJackrabbits))
     <> "SDSU ".
Proof. repeat split; try reflexivity. discriminate. Qed.

(** C1, amended: the SDSU rule rewrites the home short code to "SDSU " when
    the home competitor meets its condition (league NCAAF, short code SDSU,
    location containing South Dakota State), and the visiting short code
    when the visiting competitor meets it and the home competitor does not;
    every other short code is emitted as the feed has it, and in any league
    other than NCAAF both are. *)
Theorem sdsu_override_home_first (league : string) (localTZ : TimeZone)
  (game : Game) :
  let h := homeCompetitor game in
  let v := visitingCompetitor game in
  let fg := fst (formatGame league localTZ game) in
  Formatted.hTeam fg
  = (if isSouthDakotaState league h then "SDSU " else abbreviation (team h))
  /\ Formatted.vTeam fg
     = (if isSouthDakotaState league v
        then if isSouthDakotaState league h then "SDSU" else "SDSU "
        else abbreviation (team v))
  /\ (if String.eqb league "NCAAF" then True
      else Formatted.hTeam fg = abbreviation (team h)
           /\ Formatted.vTeam fg = abbreviation (team v)).
Proof.
  intros h v fg.
  destruct (formatGame_teams league localTZ game) as [Hh Hv].
  fold h in Hh, Hv. fold v in Hv. fold fg in Hh, Hv.
  split; [exact Hh|]. split.
  - rewrite Hv. destruct (isSouthDakotaState league h); simpl; [|reflexivity].
    destruct (isSouthDakotaState league v) eqn:Ev; [|reflexivity].
    unfold isSouthDakotaState in Ev.
    apply andb_true_iff in Ev as [Ev _]. apply andb_true_iff in Ev as [_ Ev].
    now apply String.eqb_eq in Ev.
  - rewrite Hh, Hv. unfold isSouthDakotaState.
    now destruct (String.eqb league "NCAAF").
Qed.

(** ** Delays (C2) *)

(** C2: for a status id "7" or "17" the game is LIVE and its one status line
    is "Delay"; the list of classes, however, is empty, so "delay" is not in
    it. *)
Theorem delay_status (league : string) (localTZ : TimeZone) (game : Game) :
  type_id (status game) = "7" \/ type_id (status game) = "17" ->
  let fg := fst (formatGame league localTZ game) in
  Formatted.gameMode fg = gameStateCode LIVE
  /\ Formatted.status fg = ["Delay"]
  /\ Formatted.classes fg = []
  /\ ~ In "delay" (Formatted.classes fg).
Proof.
  intros H fg.
  pose proof (formatGame_status league localTZ game) as E. fold fg in E.
  assert (S : statusOf league localTZ game = (1, [], ["Delay"])).
  { unfold statusOf. destruct H as [-> | ->]; reflexivity. }
  rewrite S in E. injection E as -> -> ->. simpl. tauto.
Qed.

Lemma delay_status_witness :
  Formatted.gameMode
    (fst (formatGame "NBA" Sample.utc (Sample.celticsAtLakers "7" 2))) = 1
  /\ Formatted.classes
       (fst (formatGame "NBA" Sample.utc (Sample.celticsAtLakers "7" 2))) = [].
Proof.
  destruct (delay_status "NBA" Sample.utc (Sample.celticsAtLakers "7" 2))
    as (Hm & _ & Hc & _).
  - left. reflexivity.
  - split; [exact Hm | exact Hc].
Defined.

(** ** Home and visitor (C7) *)

(** C7: the home competitor is chosen by the home/away flag, not by the
    place in the feed.  Whenever the first competitor is flagged "away", the
    home short code emitted is the short code of the second competitor and
    the visiting one the short code of the first, as the two competitors
    hold them when the game is emitted: the short codes of the feed, with
    the space of the SDSU rule on a competitor the rule fired on.  With the
    second competitor not flagged "away" as well, the game with its two
    competitors exchanged is formatted to the same record. *)
Theorem home_by_flag (league : string) (localTZ : TimeZone) (game : Game) :
  homeAway (competitor0 (competition game)) = "away" ->
  let c0 := competitor0 (competition game) in
  let c1 := competitor1 (competition game) in
  let fg := fst (formatGame league localTZ game) in
  let game' := snd (formatGame league localTZ game) in
  Formatted.hTeam fg
  = (if isSouthDakotaState league c1 then "SDSU " else abbreviation (team c1))
  /\ Formatted.vTeam fg
     = (if negb (isSouthDakotaState league c1) && isSouthDakotaState league c0
        then "SDSU " else abbreviation (team c0))
  /\ Formatted.hTeam fg = abbreviation (team (competitor1 (competition game')))
  /\ Formatted.vTeam fg = abbreviation (team (competitor0 (competition game')))
  /\ (homeAway c1 <> "away" ->
      fst (formatGame league localTZ (swapCompetitors game)) = fg).
Proof.
  intros Haway c0 c1 fg game'.
  pose proof (formatGame_teams league localTZ game) as T.
  unfold homeCompetitor, visitingCompetitor in T. rewrite Haway in T.
  simpl in T. destruct T as [Hh Hv]. fold c0 c1 fg in Hh, Hv.
  split; [exact Hh|]. split; [exact Hv|].
  clear Hh Hv. subst fg game' c0 c1.
  assert (Hs : statusOf league localTZ (swapCompetitors game)
               = statusOf league localTZ game) by reflexivity.
  unfold formatGame. rewrite Hs.
  destruct (statusOf league localTZ game) as [[gameState classes] lines].
  unfold swapCompetitors, setCompetitors.
  destruct game as [[d k0 k1] st]. simpl in *.
  rewrite Haway. simpl.
  split; [|split].
  - destruct (isSouthDakotaState league k1); [reflexivity|].
    destruct (isSouthDakotaState league k0); reflexivity.
  - destruct (isSouthDakotaState league k1); [reflexivity|].
    destruct (isSouthDakotaState league k0); reflexivity.
  - intros Hk1. apply String.eqb_neq in Hk1. rewrite Hk1.
    destruct (isSouthDakotaState league k1); [reflexivity|].
    destruct (isSouthDakotaState league k0); reflexivity.
Qed.

Lemma home_by_flag_witness :
  Formatted.hTeam
    (fst (formatGame "NBA" Sample.utc Sample.celticsAtLakersAwayFirst)) = "LAL"
  /\ Formatted.vTeam
       (fst (formatGame "NBA" Sample.utc Sample.celticsAtLakersAwayFirst)) = "BOS".
Proof.
  destruct (home_by_flag "NBA" Sample.utc Sample.celticsAtLakersAwayFirst)
    as (Hh & Hv & _).
  - reflexivity.
  - split; [exact Hh | exact Hv].
Defined.

(** ** Finished games (C8) *)

(** C8: for the status id "3" the game is FINAL and its one status line is
    "Final" followed by [getFinalOT league period]; that suffix is " (OT)"
    for period 5 and " (<period-4>OT)" for a period above 5 on the three
    supported leagues, and empty for a period of 4 or less or any other
    league. *)
Theorem final_status (league : string) (localTZ : TimeZone) (game : Game) :
  type_id (status game) = "3" ->
  let p := period (status game) in
  let fg := fst (formatGame league localTZ game) in
  Formatted.gameMode fg = gameStateCode FINAL
  /\ Formatted.status fg = ["Final" ++ getFinalOT league p]
  /\ (supportedLeague league = true -> p = 5 -> getFinalOT league p = " (OT)")
  /\ (supportedLeague league = true -> p > 5 ->
      getFinalOT league p = " (" ++ JS.numToString (p - 4) ++ "OT)")
  /\ (p <= 4 \/ supportedLeague league = false -> getFinalOT league p = "").
Proof.
  intros H p fg.
  pose proof (formatGame_status league localTZ game) as E. fold fg in E.
  assert (S : statusOf league localTZ game
              = (2, [], ["Final" ++ getFinalOT league p])).
  { unfold statusOf. rewrite H. reflexivity. }
  rewrite S in E. injection E as -> _ ->.
  unfold getFinalOT. rewrite overtimeLeague_supported.
  repeat split.
  - intros -> ->. reflexivity.
  - intros -> Hp.
    destruct (Z.eqb_spec p 5); [lia|].
    destruct (Z.gtb_spec p 5); [reflexivity | lia].
  - intros [Hp | ->]; [|reflexivity].
    destruct (supportedLeague league); [|reflexivity].
    destruct (Z.eqb_spec p 5); [lia|].
    destruct (Z.gtb_spec p 5); [lia | reflexivity].
Qed.

Lemma final_status_witness :
  Formatted.gameMode
    (fst (formatGame "NBA" Sample.utc (Sample.celticsAtLakers "3" 6))) = 2
  /\ Formatted.status
       (fst (formatGame "NBA" Sample.utc (Sample.celticsAtLakers "3" 6)))
     = ["Final (2OT)"].
Proof.
  destruct (final_status "NBA" Sample.utc (Sample.celticsAtLakers "3" 6))
    as (Hm & Hs & _).
  - reflexivity.
  - split; [exact Hm | exact Hs].
Defined.

(** ** Status lines (C10) *)

Lemma statusOf_lines (league : string) (localTZ : TimeZone) (game : Game) :
  snd (statusOf league localTZ game) <> [].
Proof.
  unfold statusOf. cbv zeta.
  repeat match goal with
         | |- context [if ?b then _ else _] => destruct b
         end; discriminate.
Qed.

(** C10: every game that survives the filter is formatted, and its
    formatted game has at least one status line, whatever the status id of
    the game: every branch of the status [switch], the default one
    included, pushes one.  The list returned holds the formatted games of
    the surviving games and nothing else. *)
Theorem status_nonempty (league : string) (localTZ : TimeZone) (data : Data)
  (teams : option (list string)) :
  fst (formatScores league localTZ data teams)
  = map (fun game => fst (formatGame league localTZ game))
      (survivingGames data teams)
  /\ (forall game,
        In game (events data) ->
        match teams with
        | Some ts => teamsInclude ts game = true
        | None => True
        end ->
        In game (survivingGames data teams)
        /\ In (fst (formatGame league localTZ game))
             (fst (formatScores league localTZ data teams))
        /\ Formatted.status (fst (formatGame league localTZ game)) <> []
        /\ (1 <= length (Formatted.status
                           (fst (formatGame league localTZ game))))%nat)
  /\ Forall (fun game =>
               Formatted.status (fst (formatGame league localTZ game)) <> []
               /\ (1 <= length (Formatted.status
                                  (fst (formatGame league localTZ game))))%nat)
       (survivingGames data teams)
  /\ Forall (fun fg => Formatted.status fg <> []
                       /\ (1 <= length (Formatted.status fg))%nat)
       (fst (formatScores league localTZ data teams)).
Proof.
  assert (N : forall game,
             Formatted.status (fst (formatGame league localTZ game)) <> []
             /\ (1 <= length (Formatted.status
                                (fst (formatGame league localTZ game))))%nat).
  { intros game.
    pose proof (formatGame_status league localTZ game) as E.
    pose proof (statusOf_lines league localTZ game) as L.
    rewrite <- E in L. simpl in L.
    split; [exact L|].
    destruct (Formatted.status (fst (formatGame league localTZ game)));
      [contradiction | simpl; lia]. }
  split; [apply formatScores_output|]. split; [|split].
  - intros game Hin Hkeep.
    assert (S : In game (survivingGames data teams)).
    { destruct teams as [ts|]; simpl; apply sort_In; [|exact Hin].
      apply filter_In. now split. }
    split; [exact S|]. split; [|apply N].
    rewrite formatScores_output.
    apply (in_map (fun g => fst (formatGame league localTZ g))), S.
  - apply Forall_forall. intros game _. apply N.
  - rewrite formatScores_output. apply Forall_map, Forall_forall.
    intros game _. apply N.
Qed.

(** ** The request (C4) *)

(** C4 as the specification states it fails: for the league "NHL", which
    [getLeaguePath] does not know, [getScores] throws nothing; it requests a
    URL whose path segment reads "null". *)
Lemma unsupported_league_counterexample :
  supportedLeague "NHL" = false
  /\ getScoresRequest "NHL" Sample.saturday
     = Requested
         "http://site.api.espn.com/apis/site/v2/sports/null/scoreboard?dates=20191102&limit=200"
  /\ getScoresRequest "NHL" Sample.saturday <> Thrown UnsupportedLeagueError.
Proof. repeat split; try reflexivity. discriminate. Qed.

(** C4, amended: for a league that is not one of NCAAF, NBA and NCAAM,
    [getLeaguePath] returns [null], and [getScores] signals no error: it
    requests the scoreboard URL with the text "null" where the path of the
    league goes. *)
Theorem unsupported_league_request (league : string) (gameDate : CalendarDate) :
  supportedLeague league = false ->
  getLeaguePath league = None
  /\ getScoresRequest league gameDate
     = Requested ("http://site.api.espn.com/apis/site/v2/sports/null"
                  ++ "/scoreboard?dates=" ++ formatYYYYMMDD gameDate
                  ++ "&limit=200")
  /\ forall e, getScoresRequest league gameDate <> Thrown e.
Proof.
  unfold supportedLeague. intros H.
  apply orb_false_elim in H as [H H3]. apply orb_false_elim in H as [H1 H2].
  assert (P : getLeaguePath league = None).
  { unfold getLeaguePath. now rewrite H1, H2, H3. }
  split; [exact P|]. split; [|discriminate].
  unfold getScoresRequest, scoreboardUrl. rewrite P. reflexivity.
Qed.

Lemma unsupported_league_request_witness :
  getLeaguePath "NHL" = None
  /\ getScoresRequest "NHL" Sample.saturday
     = Requested
         "http://site.api.espn.com/apis/site/v2/sports/null/scoreboard?dates=20191102&limit=200".
Proof.
  destruct (unsupported_league_request "NHL" Sample.saturday) as (Hp & Hr & _).
  - reflexivity.
  - split; [exact Hp | exact Hr].
Defined.

(** ** The filter (C6) *)

(** C6: with a team filter the games formatted are, up to their order, the
    games of the feed one of whose two short codes is in the filter, each as
    often as the feed has it; without a filter they are all the games of the
    feed. *)
Theorem filter_retains (league : string) (localTZ : TimeZone) (data : Data)
  (teams : option (list string)) :
  fst (formatScores league localTZ data teams)
  = map (fun game => fst (formatGame league localTZ game))
      (survivingGames data teams)
  /\ match teams with
     | Some ts =>
         Permutation (survivingGames data teams)
           (filter (teamsInclude ts) (events data))
         /\ (forall game,
              teamsInclude ts game = true <->
              In (abbreviation (team (competitor0 (competition game)))) ts
              \/ In (abbreviation (team (competitor1 (competition game)))) ts)
         /\ (forall game,
              In game (survivingGames data teams) <->
              In game (events data)
              /\ (In (abbreviation (team (competitor0 (competition game)))) ts
                  \/ In (abbreviation (team (competitor1 (competition game)))) ts))
     | None => Permutation (survivingGames data teams) (events data)
     end.
Proof.
  split; [apply formatScores_output|].
  destruct teams as [ts|]; simpl; [|apply sort_perm].
  assert (K : forall game,
             teamsInclude ts game = true <->
             In (abbreviation (team (competitor0 (competition game)))) ts
             \/ In (abbreviation (team (competitor1 (competition game)))) ts).
  { intros game. unfold teamsInclude.
    now rewrite orb_true_iff, !arrayIndexOf_In. }
  split; [apply sort_perm|]. split; [exact K|].
  intros game. rewrite sort_In, filter_In, K. tauto.
Qed.

(** ** The order of the output (C5) *)

(** C5 as the specification states it fails on the list returned: in the
    NCAAF feed of the samples the first two games returned start at the
    same time, and their visiting short codes are emitted as "SDSU " and
    then "SDSU", the greater one first.  The sort compares the short codes
    of the feed, both "SDSU"; the SDSU rule changes one of them afterwards. *)
Lemma output_sorted_counterexample :
  map (fun game => date (competition game))
    (survivingGames Sample.saturdayFeed None)
  = [Sample.kickoff; Sample.kickoff; Sample.kickoff + 3600000]
  /\ map Formatted.vTeam
       (fst (formatScores "NCAAF" Sample.utc Sample.saturdayFeed None))
     = ["SDSU "; "SDSU"; "SDSU"]
  /\ String.ltb "SDSU" "SDSU " = true
  /\ String.leb "SDSU " "SDSU" = false.
Proof. repeat split. Qed.

(** C5, amended: the games are formatted in the order of their start times,
    and games that start at the same time in the lexicographic order of the
    short codes their visiting teams have in the feed when the list is
    sorted, that is before the SDSU rule: of any two games of the output,
    the earlier one starts before the later one, or at the same time with a
    visiting short code of the feed that is not greater.  The visiting
    short code emitted is that short code of the feed, except for a visitor
    the SDSU rule fires on, which is emitted as "SDSU ". *)
Theorem output_sorted (league : string) (localTZ : TimeZone) (data : Data)
  (teams : option (list string)) :
  fst (formatScores league localTZ data teams)
  = map (fun game => fst (formatGame league localTZ game))
      (survivingGames data teams)
  /\ (forall game,
        awayAbbreviation game = abbreviation (team (visitingCompetitor game)))
  /\ (forall game,
        Formatted.vTeam (fst (formatGame league localTZ game))
        = if negb (isSouthDakotaState league (homeCompetitor game))
             && isSouthDakotaState league (visitingCompetitor game)
          then "SDSU " else awayAbbreviation game)
  /\ StronglySorted gameOrder (survivingGames data teams)
  /\ forall (i j : nat) (a b : Game),
       (i < j)%nat ->
       nth_error (survivingGames data teams) i = Some a ->
       nth_error (survivingGames data teams) j = Some b ->
       date (competition a) <= date (competition b)
       /\ (date (competition a) = date (competition b) ->
           String.ltb (awayAbbreviation b) (awayAbbreviation a) = false).
Proof.
  assert (V : forall game,
             awayAbbreviation game
             = abbreviation (team (visitingCompetitor game))).
  { intros game. unfold awayAbbreviation, visitingCompetitor.
    now destruct (String.eqb _ "away"). }
  split; [apply formatScores_output|].
  split; [exact V|].
  split.
  { intros game. rewrite V.
    exact (proj2 (formatGame_teams league localTZ game)). }
  pose proof (survivingGames_sorted data teams) as S.
  split; [exact S|].
  induction S as [|x l Hl IH Hx]; intros i j a b Hij Hi Hj.
  - destruct i; discriminate.
  - destruct j as [|j]; [lia|]. simpl in Hj.
    destruct i as [|i]; simpl in Hi.
    + injection Hi as ->. apply nth_error_In in Hj.
      rewrite Forall_forall in Hx. specialize (Hx b Hj).
      destruct Hx as [Hlt | [Heq Hle]].
      * split; [lia | intros; lia].
      * split; [lia | intros _].
        unfold String.leb in Hle. unfold String.ltb.
        rewrite String.compare_antisym.
        now destruct (String.compare (awayAbbreviation a) (awayAbbreviation b)).
    + apply (IH i j a b); [lia | exact Hi | exact Hj].
Qed.

(** ** Period labels (C9) *)

Lemma plainFrom_kept (a b : string) :
  keptString a = true -> plainFrom false (a ++ b) = a ++ plainFrom false b.
Proof.
  induction a as [|c a IH]; simpl; [reflexivity|].
  unfold keptChar. intros H.
  apply andb_true_iff in H as [H Ha]. apply andb_true_iff in H as [Hlt Hlow].
  apply negb_true_iff in Hlt. rewrite Hlt.
  apply Ascii.eqb_eq in Hlow. rewrite Hlow. now rewrite IH.
Qed.

Lemma keptString_uint (d : Decimal.uint) :
  keptString (NilEmpty.string_of_uint d) = true.
Proof. induction d; simpl; auto. Qed.

Lemma keptString_numToString (n : Z) : keptString (JS.numToString n) = true.
Proof.
  unfold JS.numToString, NilZero.string_of_int, NilZero.string_of_uint.
  destruct (Z.to_int n) as [d|d]; destruct d; simpl;
    auto using keptString_uint.
Qed.

(** The label of [getOrdinal], markup and case apart, is the English
    ordinal. *)
Lemma getOrdinal_english (p : Z) :
  0 <= p -> plainLabel (getOrdinal p) = englishOrdinal p.
Proof.
  intros Hp. unfold getOrdinal, englishOrdinal, ordinalSuffix, plainLabel.
  rewrite !Z.rem_mod_nonneg by lia.
  pose proof (keptString_numToString p) as K.
  repeat match goal with
         | |- context [if ?b then _ else _] => destruct b
         end; now rewrite plainFrom_kept.
Qed.

(** C9: on the three supported leagues [getPeriod] gives "OT" for period 5
    and "<p-4>OT" for a period p above 5, and for a period from 1 to 4 the
    label of [getOrdinal]; on any other league it gives the label of
    [getOrdinal] for every period.  That label is the English ordinal of the
    period number, written in capitals inside superscript markup. *)
Theorem period_labels (league : string) (p : Z) :
  (supportedLeague league = true ->
   (p = 5 -> getPeriod league p = "OT")
   /\ (p > 5 -> getPeriod league p = JS.numToString (p - 4) ++ "OT")
   /\ (1 <= p <= 4 ->
       getPeriod league p = getOrdinal p
       /\ plainLabel (getPeriod league p) = englishOrdinal p))
  /\ (supportedLeague league = false ->
      getPeriod league p = getOrdinal p
      /\ (0 <= p -> plainLabel (getPeriod league p) = englishOrdinal p)).
Proof.
  unfold getPeriod. rewrite overtimeLeague_supported.
  split; intros ->.
  - repeat split.
    + intros ->. reflexivity.
    + intros Hp. destruct (Z.eqb_spec p 5); [lia|].
      destruct (Z.gtb_spec p 5); [reflexivity | lia].
    + destruct (Z.eqb_spec p 5); [lia|].
      destruct (Z.gtb_spec p 5); [lia | reflexivity].
    + destruct (Z.eqb_spec p 5); [lia|].
      destruct (Z.gtb_spec p 5); [lia|].
      apply getOrdinal_english. lia.
  - split; [reflexivity | apply getOrdinal_english].
Qed.

Lemma period_labels_witness :
  getPeriod "NBA" 5 = "OT"
  /\ getPeriod "NBA" 6 = "2OT"
  /\ getPeriod "NBA" 3 = "3<sup>RD</sup>"
  /\ plainLabel (getPeriod "NBA" 3) = "3rd"
  /\ plainLabel (getPeriod "NHL" 7) = "7th".
Proof.
  split; [|split; [|split; [|split]]].
  - apply (proj1 (period_labels "NBA" 5)); reflexivity.
  - apply (proj1 (period_labels "NBA" 6)); reflexivity.
  - apply (proj1 (period_labels "NBA" 3)); [reflexivity | lia].
  - apply (proj1 (period_labels "NBA" 3)); [reflexivity | lia].
  - apply (proj2 (period_labels "NHL" 7)); [reflexivity | lia].
Defined.

(** ** Calling formatScores twice (C3) *)

(** C3 as the specification states it fails: the first call on an NCAAF
    feed with South Dakota State at home writes "SDSU " into the feed, so a
    second call with the same feed and the same filter ["SDSU"] finds no
    game to keep, and returns an empty list where the first call returned
    one game. *)
Lemma formatScores_twice_counterexample :
  map Formatted.hTeam
    (fst (formatScoresTwice "NCAAF" Sample.utc Sample.jackrabbitsFeed
            Sample.followSDSU))
  = ["SDSU "]
  /\ snd (formatScoresTwice "NCAAF" Sample.utc Sample.jackrabbitsFeed
            Sample.followSDSU)
     = []
  /\ snd (formatScoresTwice "NCAAF" Sample.utc Sample.jackrabbitsFeed
            Sample.followSDSU)
     <> fst (formatScoresTwice "NCAAF" Sample.utc Sample.jackrabbitsFeed
               Sample.followSDSU).
Proof. repeat split; try reflexivity. discriminate. Qed.

Lemma overrideApplies_league (league : string) (game : Game) :
  String.eqb league "NCAAF" = false -> overrideApplies league game = false.
Proof.
  intros H. unfold overrideApplies, isSouthDakotaState. now rewrite H.
Qed.

Lemma formatGame_unchanged_all (league : string) (localTZ : TimeZone)
  (games : list Game) :
  Forall (fun game => overrideApplies league game = false) games ->
  map (fun game => snd (formatGame league localTZ game)) games = games.
Proof.
  induction 1 as [|game games H _ IH]; simpl; [reflexivity|].
  now rewrite IH, formatGame_unchanged.
Qed.

(** C3, amended: when the SDSU rule fires on none of the games a call
    formats (as in every league other than NCAAF), a second call in
    sequence with the same arguments returns the list the first call
    returned; the data are the same object for both calls, sorted in place
    by the first one when there is no filter. *)
Theorem formatScores_twice (league : string) (localTZ : TimeZone) (data : Data)
  (teams : option (list string)) :
  Forall (fun game => overrideApplies league game = false)
    (survivingGames data teams) ->
  fst (formatScoresTwice league localTZ data teams)
  = fst (formatScores league localTZ data teams)
  /\ snd (formatScoresTwice league localTZ data teams)
     = fst (formatScoresTwice league localTZ data teams).
Proof.
  intros H. unfold formatScoresTwice.
  destruct teams as [ts|]; simpl in *.
  - assert (E : map (fun game =>
                       if teamsInclude ts game
                       then snd (formatGame league localTZ game)
                       else game) (events data) = events data).
    { rewrite <- (map_id (events data)) at 2. apply map_ext_in.
      intros game Hin. destruct (teamsInclude ts game) eqn:K; [|reflexivity].
      apply formatGame_unchanged.
      rewrite Forall_forall in H. apply H.
      apply sort_In, filter_In. now split. }
    rewrite E. split; reflexivity.
  - rewrite (formatGame_unchanged_all league localTZ _ H).
    rewrite (sort_idempotent compareGames compareGames_total compareGames_trans).
    split; reflexivity.
Qed.

Lemma formatScores_twice_witness :
  snd (formatScoresTwice "NBA" Sample.utc Sample.lakersFeed None)
  = fst (formatScoresTwice "NBA" Sample.utc Sample.lakersFeed None).
Proof.
  apply (formatScores_twice "NBA" Sample.utc Sample.lakersFeed None).
  repeat constructor.
Defined.

(** ** The examples of the specification *)

Example getOrdinal_examples :
  map (fun p => plainLabel (getOrdinal p)) [1; 11; 21; 2; 12; 13; 4]
  = ["1st"; "11th"; "21st"; "2nd"; "12th"; "13th"; "4th"].
Proof. reflexivity. Qed.

Example getFinalOT_examples :
  getFinalOT "NCAAF" 5 = " (OT)"
  /\ getFinalOT "NCAAF" 7 = " (3OT)"
  /\ getFinalOT "NCAAF" 2 = "".
Proof. repeat split. Qed.

Example unknown_status_example :
  let fg := fst (formatGame "NBA" Sample.utc (Sample.celticsAtLakers "99" 0)) in
  Formatted.gameMode fg = gameStateCode SCHEDULED
  /\ Formatted.status fg = ["4:00 pm"].
Proof. split; reflexivity. Qed.

Example override_by_league_example :
  Formatted.hTeam
    (fst (formatGame "NCAAF" Sample.utc Sample.bisonAtJackrabbitsHomeFirst))
  = "SDSU "
  /\ Formatted.hTeam
       (fst (formatGame "NBA" Sample.utc Sample.bisonAtJackrabbitsHomeFirst))
     = "SDSU".
Proof. split; reflexivity. Qed.

(** The sort comes before the SDSU rule: two visitors the feed both calls
    SDSU are equal for the sort and keep the order of the feed, whatever the
    rule makes of their short codes afterwards. *)
Example saturday_feed_example :
  map (fun fg => (Formatted.vTeam fg, Formatted.status fg))
    (fst (formatScores "NCAAF" Sample.utc Sample.saturdayFeed None))
  = [("SDSU ", ["4:00 pm"]); ("SDSU", ["4:00 pm"]); ("SDSU", ["5:00 pm"])].
Proof. reflexivity. Qed.

(** * Further properties of the provider *)

(** ** Paths and URLs *)

(** [getLeaguePath] gives a path for the three supported leagues and for
    them only, and no two leagues share a path. *)
Theorem getLeaguePath_injective (a b path : string) :
  getLeaguePath a = Some path -> getLeaguePath b = Some path ->
  a = b /\ supportedLeague a = true.
Proof.
  unfold getLeaguePath, supportedLeague.
  destruct (String.eqb_spec a "NCAAF") as [->|_];
    [|destruct (String.eqb_spec a "NBA") as [->|_];
      [|destruct (String.eqb_spec a "NCAAM") as [->|_]; [|discriminate]]];
    intros [= <-];
    (destruct (String.eqb_spec b "NCAAF") as [->|_];
     [|destruct (String.eqb_spec b "NBA") as [->|_];
       [|destruct (String.eqb_spec b "NCAAM") as [->|_]; [|discriminate]]]);
    intros H; try discriminate H; split; reflexivity.
Qed.

Lemma getLeaguePath_injective_witness :
  "NBA" = "NBA" /\ supportedLeague "NBA" = true.
Proof.
  apply (getLeaguePath_injective "NBA" "NBA" "basketball/nba"); reflexivity.
Defined.

Lemma getLeaguePath_cases (league : string) :
  getLeaguePath league = Some "football/college-football"
  \/ getLeaguePath league = Some "basketball/nba"
  \/ getLeaguePath league = Some "basketball/mens-college-basketball"
  \/ getLeaguePath league = None.
Proof.
  unfold getLeaguePath.
  destruct (String.eqb league "NCAAF"); [tauto|].
  destruct (String.eqb league "NBA"); [tauto|].
  destruct (String.eqb league "NCAAM"); tauto.
Qed.

(** Two requests for the same URL are requests for the same league path,
    whatever their dates: the URLs of two different supported leagues never
    coincide, and neither does the URL of a supported league with the one an
    unsupported league gives. *)
Theorem scoreboardUrl_league (a b : string) (d e : CalendarDate) :
  scoreboardUrl a d = scoreboardUrl b e ->
  getLeaguePath a = getLeaguePath b.
Proof.
  unfold scoreboardUrl.
  destruct (getLeaguePath_cases a) as [Ha|[Ha|[Ha|Ha]]];
    destruct (getLeaguePath_cases b) as [Hb|[Hb|[Hb|Hb]]];
    rewrite Ha, Hb; simpl; intros H; try reflexivity; discriminate H.
Qed.

Lemma scoreboardUrl_league_witness :
  getLeaguePath "NBA" = getLeaguePath "NBA".
Proof.
  apply (scoreboardUrl_league "NBA" "NBA" Sample.saturday Sample.saturday).
  reflexivity.
Defined.

(** ** The size of the output *)


(** When no event has a short code of the filter, the output is empty and
    the feed is left as it was; in particular for an empty filter, which
    keeps nothing (only [null] keeps all). *)
Theorem formatScores_no_match (league : string) (localTZ : TimeZone)
  (data : Data) (ts : list string) :
  (forall game, In game (events data) ->
     ~ In (abbreviation (team (competitor0 (competition game)))) ts
     /\ ~ In (abbreviation (team (competitor1 (competition game)))) ts) ->
  formatScores league localTZ data (Some ts) = ([], data).
Proof.
  intros H.
  assert (K : forall game, In game (events data) ->
                teamsInclude ts game = false).
  { intros game Hin. destruct (H game Hin) as [H0 H1].
    unfold teamsInclude.
    destruct (negb (JS.arrayIndexOf ts _ =? -1)) eqn:E0;
      [apply arrayIndexOf_In in E0; contradiction|].
    destruct (negb (JS.arrayIndexOf ts
                      (abbreviation (team (competitor1 (competition game))))
                    =? -1)) eqn:E1;
      [apply arrayIndexOf_In in E1; contradiction | reflexivity]. }
  unfold formatScores. destruct data as [evs]. simpl in *.
  assert (F : filter (teamsInclude ts) evs = []).
  { clear H. induction evs as [|g evs IH]; simpl; [reflexivity|].
    rewrite (K g) by now left. apply IH. intros; apply K; now right. }
  rewrite F. simpl. f_equal. f_equal.
  rewrite <- (map_id evs) at 2. apply map_ext_in.
  intros game Hin. now rewrite K.
Qed.

Lemma formatScores_no_match_witness :
  formatScores "NBA" Sample.utc Sample.lakersFeed (Some [])
  = ([], Sample.lakersFeed).
Proof.
  apply (formatScores_no_match "NBA" Sample.utc Sample.lakersFeed []).
  intros game _. simpl. tauto.
Defined.

(** ** The status switch *)

Ltac by_status_id id :=
  repeat match goal with
         | |- context [String.eqb id ?k] =>
             destruct (String.eqb_spec id k); [subst id; simpl|]
         end.

Lemma statusOf_by_id (league : string) (localTZ : TimeZone) (game : Game) :
  let id := type_id (status game) in
  let mode := fst (fst (statusOf league localTZ game)) in
  let lines := snd (statusOf league localTZ game) in
  (mode = 2 <-> id = "3")
  /\ (mode = 1 <-> In id liveIds)
  /\ (mode = 0 <-> id <> "3" /\ ~ In id liveIds)
  /\ (length lines = 2%nat <-> In id periodIds)
  /\ (length lines = 1%nat <-> ~ In id periodIds)
  /\ snd (fst (statusOf league localTZ game)) = [].
Proof.
  destruct game as [comp [id p clock]].
  unfold statusOf, liveIds, periodIds. cbv zeta. simpl type_id.
  by_status_id id; simpl;
    (repeat split; try reflexivity; try discriminate; try lia;
     simpl; intuition (try congruence; try discriminate; try lia)).
Qed.

(** Whatever the feed holds, a formatted game has a game mode of 0, 1 or 2,
    one or two status lines, the logo flag set, and no class at all: no
    branch of the status switch adds one. *)
Theorem output_shape (league : string) (localTZ : TimeZone) (data : Data)
  (teams : option (list string)) :
  Forall (fun fg =>
            0 <= Formatted.gameMode fg <= 2
            /\ (1 <= length (Formatted.status fg) <= 2)%nat
            /\ Formatted.classes fg = []
            /\ Formatted.usePngLogos fg = true)
    (fst (formatScores league localTZ data teams)).
Proof.
  rewrite formatScores_output. apply Forall_map, Forall_forall.
  intros game _.
  pose proof (formatGame_status league localTZ game) as E.
  destruct (statusOf_by_id league localTZ game) as (H2 & H1 & H0 & L2 & L1 & C).
  rewrite <- E in H2, H1, H0, L2, L1, C.
  cbn [fst snd] in H2, H1, H0, L2, L1, C.
  repeat split.
  - destruct (string_dec (type_id (status game)) "3") as [e|n];
      [apply H2 in e; lia|].
    destruct (in_dec string_dec (type_id (status game)) liveIds) as [i|i];
      [apply H1 in i; lia | assert (Formatted.gameMode
         (fst (formatGame league localTZ game)) = 0) by (apply H0; tauto); lia].
  - destruct (string_dec (type_id (status game)) "3") as [e|n];
      [apply H2 in e; lia|].
    destruct (in_dec string_dec (type_id (status game)) liveIds) as [i|i];
      [apply H1 in i; lia | assert (Formatted.gameMode
         (fst (formatGame league localTZ game)) = 0) by (apply H0; tauto); lia].
  - destruct (in_dec string_dec (type_id (status game)) periodIds) as [i|i];
      [apply L2 in i | apply L1 in i]; lia.
  - destruct (in_dec string_dec (type_id (status game)) periodIds) as [i|i];
      [apply L2 in i | apply L1 in i]; lia.
  - exact C.
  - unfold formatGame.
    destruct (statusOf league localTZ game) as [[gameState classes] lines].
    destruct (String.eqb _ "away"); cbv zeta;
      repeat match goal with
             | |- context [if ?b then _ else _] => destruct b
             end; reflexivity.
Qed.

(** The game mode follows the status id alone: FINAL for "3" and for no
    other id, LIVE for the seven ids of a game in progress, SCHEDULED for
    every other id, known or not; and there are two status lines (a clock or
    "END", then the period) for the ids "2", "21", "24" and "22", one line
    otherwise. *)
Theorem gameMode_by_id (league : string) (localTZ : TimeZone) (game : Game) :
  let id := type_id (status game) in
  let fg := fst (formatGame league localTZ game) in
  (Formatted.gameMode fg = gameStateCode FINAL <-> id = "3")
  /\ (Formatted.gameMode fg = gameStateCode LIVE <-> In id liveIds)
  /\ (Formatted.gameMode fg = gameStateCode SCHEDULED <->
      id <> "3" /\ ~ In id liveIds)
  /\ (length (Formatted.status fg) = 2%nat <-> In id periodIds)
  /\ (length (Formatted.status fg) = 1%nat <-> ~ In id periodIds).
Proof.
  intros id fg.
  pose proof (formatGame_status league localTZ game) as E. fold fg in E.
  destruct (statusOf_by_id league localTZ game) as (H2 & H1 & H0 & L2 & L1 & _).
  rewrite <- E in H2, H1, H0, L2, L1. cbn [fst snd] in H2, H1, H0, L2, L1.
  unfold gameStateCode. subst id. tauto.
Qed.

(** ** The fields of a formatted game *)

(** [formatGame] in one piece: the competitors the flag chooses, then the
    SDSU rule on the home one or else on the visiting one. *)
Lemma formatGame_fields (league : string) (localTZ : TimeZone) (game : Game) :
  let h := homeCompetitor game in
  let v := visitingCompetitor game in
  let h' := if isSouthDakotaState league h
            then setAbbreviation h "SDSU " else h in
  let v' := if negb (isSouthDakotaState league h)
               && isSouthDakotaState league v
            then setAbbreviation v "SDSU " else v in
  formatGame league localTZ game
  = (Formatted.mk
       (snd (fst (statusOf league localTZ game)))
       (fst (fst (statusOf league localTZ game)))
       (abbreviation (team h')) (abbreviation (team v'))
       (longName league h') (longName league v')
       (JS.parseInt (score h')) (JS.parseInt (score v'))
       (snd (statusOf league localTZ game))
       true,
     if String.eqb (homeAway (competitor0 (competition game))) "away"
     then setCompetitors game v' h'
     else setCompetitors game h' v').
Proof.
  unfold formatGame, homeCompetitor, visitingCompetitor.
  destruct (statusOf league localTZ game) as [[gameState classes] lines].
  destruct (String.eqb (homeAway (competitor0 (competition game))) "away");
    cbv zeta;
    match goal with
    | |- context [isSouthDakotaState league ?h] =>
        destruct (isSouthDakotaState league h)
    end; simpl;
    try match goal with
    | |- context [isSouthDakotaState league ?v] =>
        destruct (isSouthDakotaState league v)
    end; reflexivity.
Qed.

(** The long names are built on the short codes emitted: in the two college
    leagues the long name of a side is its emitted short code (with the
    space of the SDSU rule, if it fired), a space, and the short display
    name of the competitor the flag chose; in any other league it is that
    short display name alone. *)
Theorem long_names (league : string) (localTZ : TimeZone) (game : Game) :
  let fg := fst (formatGame league localTZ game) in
  let college := String.eqb league "NCAAF" || String.eqb league "NCAAM" in
  Formatted.hTeamLong fg
  = (if college then Formatted.hTeam fg ++ " " else "")
      ++ shortDisplayName (team (homeCompetitor game))
  /\ Formatted.vTeamLong fg
     = (if college then Formatted.vTeam fg ++ " " else "")
         ++ shortDisplayName (team (visitingCompetitor game)).
Proof.
  rewrite formatGame_fields. simpl. unfold longName.
  destruct (isSouthDakotaState league (homeCompetitor game));
    destruct (isSouthDakotaState league (visitingCompetitor game));
    simpl; split; reflexivity.
Qed.

(** The scores go with the teams: the home score is read from the
    competitor the flag makes the home one, the visiting score from the
    other, in every league and whether or not the SDSU rule fires. *)
Theorem scores_by_flag (league : string) (localTZ : TimeZone) (game : Game) :
  let fg := fst (formatGame league localTZ game) in
  Formatted.hScore fg = JS.parseInt (score (homeCompetitor game))
  /\ Formatted.vScore fg = JS.parseInt (score (visitingCompetitor game))
  /\ (homeAway (competitor0 (competition game)) = "away" ->
      Formatted.hScore fg = JS.parseInt (score (competitor1 (competition game)))
      /\ Formatted.vScore fg
         = JS.parseInt (score (competitor0 (competition game)))).
Proof.
  rewrite formatGame_fields. simpl.
  assert (S : forall c (b : bool),
             score (if b then setAbbreviation c "SDSU " else c) = score c)
    by (intros c []; reflexivity).
  rewrite !S. split; [reflexivity|]. split; [reflexivity|].
  intros H. unfold homeCompetitor, visitingCompetitor. rewrite H.
  split; reflexivity.
Qed.

(** ** What a call writes *)

Lemma isSouthDakotaState_abbreviation (league : string) (c : Competitor) :
  isSouthDakotaState league c = true ->
  league = "NCAAF" /\ abbreviation (team c) = "SDSU".
Proof.
  unfold isSouthDakotaState. intros H.
  apply andb_true_iff in H as [H _]. apply andb_true_iff in H as [H1 H2].
  split; now apply String.eqb_eq.
Qed.

Lemma isSouthDakotaState_rewritten (league : string) (c : Competitor) :
  isSouthDakotaState league (setAbbreviation c "SDSU ") = false.
Proof.
  unfold isSouthDakotaState. simpl.
  now destruct (String.eqb league "NCAAF").
Qed.

(** Formatting a game writes nothing but short codes: the game keeps its
    start, its status, and for both competitors the flag, the location, the
    display name and the score; a short code is either kept or, in NCAAF,
    changed from "SDSU" to "SDSU ". *)
Theorem formatGame_footprint (league : string) (localTZ : TimeZone)
  (game : Game) :
  let game' := snd (formatGame league localTZ game) in
  let same (c c' : Competitor) :=
    homeAway c' = homeAway c
    /\ location (team c') = location (team c)
    /\ shortDisplayName (team c') = shortDisplayName (team c)
    /\ score c' = score c
    /\ (abbreviation (team c') = abbreviation (team c)
        \/ (league = "NCAAF" /\ abbreviation (team c) = "SDSU"
            /\ abbreviation (team c') = "SDSU ")) in
  date (competition game') = date (competition game)
  /\ status game' = status game
  /\ same (competitor0 (competition game)) (competitor0 (competition game'))
  /\ same (competitor1 (competition game)) (competitor1 (competition game')).
Proof.
  rewrite formatGame_fields. unfold homeCompetitor, visitingCompetitor.
  destruct game as [[d c0 c1] st]. simpl.
  destruct (String.eqb (homeAway c0) "away");
    destruct (isSouthDakotaState league c0) eqn:E0;
    destruct (isSouthDakotaState league c1) eqn:E1; simpl;
    try apply isSouthDakotaState_abbreviation in E0;
    try apply isSouthDakotaState_abbreviation in E1;
    repeat split; tauto.
Qed.

(** In a league other than NCAAF a call writes no game: with a filter the
    feed is left exactly as it was, without one it is left sorted, with the
    same events. *)
Theorem other_leagues_feed (league : string) (localTZ : TimeZone)
  (data : Data) (teams : option (list string)) :
  String.eqb league "NCAAF" = false ->
  snd (formatScores league localTZ data teams)
  = match teams with
    | Some _ => data
    | None => mkData (JS.sort compareGames (events data))
    end
  /\ Permutation (events (snd (formatScores league localTZ data teams)))
       (events data).
Proof.
  intros H.
  assert (U : forall games,
             map (fun game => snd (formatGame league localTZ game)) games
             = games).
  { intros games. apply formatGame_unchanged_all, Forall_forall.
    intros game _. now apply overrideApplies_league. }
  destruct data as [evs]. destruct teams as [ts|]; simpl.
  - assert (E : map (fun game =>
                       if teamsInclude ts game
                       then snd (formatGame league localTZ game)
                       else game) evs = evs).
    { rewrite <- (map_id evs) at 2. apply map_ext.
      intros game. destruct (teamsInclude ts game); [|reflexivity].
      apply formatGame_unchanged. now apply overrideApplies_league. }
    rewrite E. split; reflexivity.
  - rewrite U. split; [reflexivity | apply sort_perm].
Qed.

Lemma other_leagues_feed_witness :
  snd (formatScores "NBA" Sample.utc Sample.lakersFeed Sample.followSDSU)
  = Sample.lakersFeed.
Proof.
  apply (other_leagues_feed "NBA" Sample.utc Sample.lakersFeed
           Sample.followSDSU).
  reflexivity.
Defined.

(** ** Formatting a game again *)

Lemma formatGame_left_unmatched (league : string) (localTZ : TimeZone)
  (game : Game) :
  let game' := snd (formatGame league localTZ game) in
  isSouthDakotaState league (competitor0 (competition game'))
  && isSouthDakotaState league (competitor1 (competition game')) = false.
Proof.
  rewrite formatGame_fields. unfold homeCompetitor, visitingCompetitor.
  destruct game as [[d c0 c1] st]. simpl.
  destruct (String.eqb (homeAway c0) "away");
    destruct (isSouthDakotaState league c0) eqn:E0;
    destruct (isSouthDakotaState league c1) eqn:E1; simpl;
    rewrite ?isSouthDakotaState_rewritten, ?E0, ?E1; reflexivity.
Qed.

Lemma formatGame_again_unless_both (league : string) (localTZ : TimeZone)
  (game : Game) :
  isSouthDakotaState league (competitor0 (competition game))
  && isSouthDakotaState league (competitor1 (competition game)) = false ->
  formatGame league localTZ (snd (formatGame league localTZ game))
  = formatGame league localTZ game.
Proof.
  intros H.
  rewrite (formatGame_fields league localTZ (snd _)).
  rewrite (formatGame_fields league localTZ game).
  unfold homeCompetitor, visitingCompetitor.
  destruct game as [[d c0 c1] st]. simpl in *.
  destruct (String.eqb (homeAway c0) "away") eqn:A;
    destruct (isSouthDakotaState league c0) eqn:E0;
    destruct (isSouthDakotaState league c1) eqn:E1;
    try discriminate H; simpl;
    rewrite ?A; simpl;
    rewrite ?isSouthDakotaState_rewritten, ?E0, ?E1; simpl;
    rewrite ?A; reflexivity.
Qed.

(** Unless both competitors of a game meet the condition of the SDSU rule,
    formatting the game a second time, as the first call left it, gives the
    same formatted game and writes nothing more. *)
Theorem formatGame_again (league : string) (localTZ : TimeZone) (game : Game) :
  isSouthDakotaState league (competitor0 (competition game))
  && isSouthDakotaState league (competitor1 (competition game)) = false ->
  let game' := snd (formatGame league localTZ game) in
  fst (formatGame league localTZ game') = fst (formatGame league localTZ game)
  /\ snd (formatGame league localTZ game') = game'.
Proof.
  intros H game'. subst game'.
  rewrite (formatGame_again_unless_both league localTZ game H).
  split; reflexivity.
Qed.

Lemma formatGame_again_witness :
  fst (formatGame "NCAAF" Sample.utc
         (snd (formatGame "NCAAF" Sample.utc Sample.bisonAtJackrabbits)))
  = fst (formatGame "NCAAF" Sample.utc Sample.bisonAtJackrabbits).
Proof.
  apply (formatGame_again "NCAAF" Sample.utc Sample.bisonAtJackrabbits).
  reflexivity.
Defined.

(** From the second call on nothing changes any more, for every game: the
    third formatting of a game gives what the second gave, and leaves the
    game as the second left it. *)
Theorem formatGame_settles (league : string) (localTZ : TimeZone)
  (game : Game) :
  let game1 := snd (formatGame league localTZ game) in
  let game2 := snd (formatGame league localTZ game1) in
  formatGame league localTZ game2 = formatGame league localTZ game1
  /\ snd (formatGame league localTZ game2) = game2.
Proof.
  intros game1 game2.
  assert (E : formatGame league localTZ game2 = formatGame league localTZ game1).
  { apply formatGame_again_unless_both, formatGame_left_unmatched. }
  split; [exact E | now rewrite E].
Qed.

(** ** The order of the feed *)

Section SortedLists.
Context {A : Type}.
Variable R : A -> A -> Prop.

(** Two sorted lists with the same elements are the same list, when the
    order tells the elements apart. *)
Lemma sorted_unique (l1 l2 : list A) :
  StronglySorted R l1 -> StronglySorted R l2 -> Permutation l1 l2 ->
  (forall a b, In a l1 -> In b l1 -> R a b -> R b a -> a = b) ->
  l1 = l2.
Proof.
  intros S1. revert l2.
  induction S1 as [|x l1 S1 IH Hx]; intros l2 S2 P Anti.
  - apply Permutation_nil in P. now subst.
  - destruct S2 as [|y l2 S2 Hy].
    + symmetry in P. now apply Permutation_nil in P.
    + assert (E : x = y).
      { assert (Iy : In y (x :: l1))
          by (apply (Permutation_in y (Permutation_sym P)); now left).
        assert (Ix : In x (y :: l2))
          by (apply (Permutation_in x P); now left).
        destruct Iy as [Iy|Iy]; [exact Iy|].
        destruct Ix as [Ix|Ix]; [now symmetry|].
        rewrite Forall_forall in Hx, Hy.
        apply Anti; [now left | now right | now apply Hx | now apply Hy]. }
      subst y. f_equal. apply IH.
      * exact S2.
      * now apply Permutation_cons_inv with x.
      * intros a b Ha Hb. apply Anti; now right.
Qed.

Lemma filter_perm (keep : A -> bool) (l1 l2 : list A) :
  Permutation l1 l2 -> Permutation (filter keep l1) (filter keep l2).
Proof.
  induction 1 as [|x l1 l2 _ IH|x y l|l1 l2 l3 _ IH1 _ IH2]; simpl.
  - constructor.
  - destruct (keep x); [now constructor | exact IH].
  - destruct (keep x), (keep y); try reflexivity. apply perm_swap.
  - now transitivity (filter keep l2).
Qed.
End SortedLists.

Lemma survivingGames_In (data : Data) (teams : option (list string))
  (game : Game) :
  In game (survivingGames data teams) -> In game (events data).
Proof.
  destruct teams as [ts|]; simpl; rewrite sort_In; [|tauto].
  rewrite filter_In. tauto.
Qed.

(** The output does not depend on the order of the events in the feed, as
    long as no two events have both the same start and the same away short
    code: two feeds with the same events, in any order, give the same
    list. *)
Theorem feed_order_immaterial (league : string) (localTZ : TimeZone)
  (data1 data2 : Data) (teams : option (list string)) :
  Permutation (events data1) (events data2) ->
  distinctKeys (events data1) ->
  fst (formatScores league localTZ data1 teams)
  = fst (formatScores league localTZ data2 teams).
Proof.
  intros P D. rewrite !formatScores_output. f_equal.
  apply (sorted_unique gameOrder).
  - apply survivingGames_sorted.
  - apply survivingGames_sorted.
  - destruct teams as [ts|]; simpl.
    + rewrite !sort_perm. now apply filter_perm.
    + now rewrite !sort_perm.
  - intros a b Ha Hb [Hab|[Eab Lab]] [Hba|[Eba Lba]]; try lia.
    apply D; try (eapply survivingGames_In; eassumption); [exact Eab|].
    now apply String.leb_antisym.
Qed.

Lemma feed_order_immaterial_witness :
  fst (formatScores "NBA" Sample.utc
         (mkData [Sample.celticsAtLakers "3" 6; Sample.lateGame]) None)
  = fst (formatScores "NBA" Sample.utc
           (mkData [Sample.lateGame; Sample.celticsAtLakers "3" 6]) None).
Proof.
  apply (feed_order_immaterial "NBA" Sample.utc
           (mkData [Sample.celticsAtLakers "3" 6; Sample.lateGame])
           (mkData [Sample.lateGame; Sample.celticsAtLakers "3" 6]) None).
  - apply perm_swap.
  - intros a b [<-|[<-|[]]] [<-|[<-|[]]] Hd Ha;
      try reflexivity; discriminate Hd.
Defined.

(** ** Filtering and sorting *)

Section FilterSort.
Context {A : Type}.
Variable cmp : A -> A -> Z.
Variable keep : A -> bool.
Hypothesis cmp_total : forall x y, notAfter cmp x y \/ notAfter cmp y x.
Hypothesis cmp_trans :
  forall x y z, notAfter cmp x y -> notAfter cmp y z -> notAfter cmp x z.

Lemma insertSorted_first (x : A) (l : list A) :
  Forall (notAfter cmp x) l -> JS.insertSorted cmp x l = x :: l.
Proof.
  destruct 1 as [|y l Hy _]; simpl; [reflexivity|].
  apply Z.leb_le in Hy. now rewrite Hy.
Qed.

Lemma filter_insertSorted (x : A) (l : list A) :
  StronglySorted (notAfter cmp) l ->
  filter keep (JS.insertSorted cmp x l)
  = if keep x then JS.insertSorted cmp x (filter keep l) else filter keep l.
Proof.
  induction 1 as [|y l Sl IH Hy]; simpl.
  - now destruct (keep x).
  - destruct (cmp x y <=? 0) eqn:E; simpl.
    + destruct (keep x); [|reflexivity].
      symmetry. apply (insertSorted_first x (filter keep (y :: l))).
      apply Z.leb_le in E.
      apply Forall_forall. intros z Hz. apply filter_In in Hz as [Hz _].
      destruct Hz as [<-|Hz]; [exact E|].
      rewrite Forall_forall in Hy. apply cmp_trans with y; [exact E|].
      now apply Hy.
    + rewrite IH. destruct (keep x), (keep y); simpl; try reflexivity.
      now rewrite E.
Qed.

Lemma filter_sort (l : list A) :
  filter keep (JS.sort cmp l) = JS.sort cmp (filter keep l).
Proof.
  induction l as [|x l IH]; simpl; [reflexivity|].
  rewrite filter_insertSorted by now apply sort_sorted.
  rewrite IH. now destruct (keep x).
Qed.
End FilterSort.

(** Filtering and sorting can be exchanged: the games formatted with a
    filter are the games formatted without one that have a short code of
    the filter, in the same relative order (the sort being stable). *)
Theorem filtered_is_sublist (league : string) (localTZ : TimeZone)
  (data : Data) (ts : list string) :
  survivingGames data (Some ts)
  = filter (teamsInclude ts) (survivingGames data None)
  /\ fst (formatScores league localTZ data (Some ts))
     = map (fun game => fst (formatGame league localTZ game))
         (filter (teamsInclude ts) (survivingGames data None)).
Proof.
  assert (E : survivingGames data (Some ts)
              = filter (teamsInclude ts) (survivingGames data None)).
  { simpl. symmetry.
    apply filter_sort; [apply compareGames_total | apply compareGames_trans]. }
  split; [exact E|]. rewrite formatScores_output. now rewrite E.
Qed.

(** ** More on the period labels *)

Lemma string_append_assoc (a b c : string) : (a ++ b) ++ c = a ++ b ++ c.
Proof. induction a as [|x a IH]; simpl; [reflexivity | now rewrite IH]. Qed.

Lemma numToString_parsed (n : Z) :
  NilZero.int_of_string (JS.numToString n) = Some (Z.to_int n).
Proof.
  unfold JS.numToString. apply NilZero.isi.
  - destruct n; simpl; intros [= H]; try discriminate H.
    now apply DecimalPos.Unsigned.to_uint_nonnil in H.
  - destruct n; simpl; intros [= H].
    now apply DecimalPos.Unsigned.to_uint_nonnil in H.
Qed.

(** Two numbers with the same decimal text are the same number. *)
Lemma numToString_inj (m n : Z) : JS.numToString m = JS.numToString n -> m = n.
Proof.
  intros H. apply (f_equal NilZero.int_of_string) in H.
  rewrite !numToString_parsed in H. injection H as H.
  apply (f_equal Z.of_int) in H. now rewrite !DecimalZ.of_to in H.
Qed.

Lemma numToString_nonempty (n : Z) : JS.numToString n <> "".
Proof.
  intros H. pose proof (numToString_parsed n) as P. rewrite H in P.
  discriminate P.
Qed.

(** A text is cut in one way only at its first character that is [<] or a
    capital letter. *)
Lemma kept_prefix_unique (a a' : string) (c c' : ascii) (r r' : string) :
  keptString a = true -> keptString a' = true ->
  keptChar c = false -> keptChar c' = false ->
  a ++ String c r = a' ++ String c' r' ->
  a = a' /\ c = c' /\ r = r'.
Proof.
  revert a'. induction a as [|x a IH]; intros [|x' a'] Ka Ka' Kc Kc' E;
    simpl in *.
  - now injection E as -> ->.
  - injection E as -> _. apply andb_true_iff in Ka' as [Ka' _]. congruence.
  - injection E as -> _. apply andb_true_iff in Ka as [Ka _]. congruence.
  - injection E as -> E.
    apply andb_true_iff in Ka as [_ Ka]. apply andb_true_iff in Ka' as [_ Ka'].
    destruct (IH a' Ka Ka' Kc Kc' E) as (-> & -> & ->). tauto.
Qed.

(** Every label of [getPeriod] is a number text, or nothing, followed by
    the markup of an ordinal or by "OT". *)
Lemma getPeriod_shape (league : string) (p : Z) :
  (exists sfx, getPeriod league p = JS.numToString p ++ String "<" sfx)
  \/ (p = 5 /\ getPeriod league p = "" ++ String "O" "T")
  \/ (p > 5 /\ getPeriod league p = JS.numToString (p - 4) ++ String "O" "T").
Proof.
  assert (O : exists sfx, getOrdinal p = JS.numToString p ++ String "<" sfx).
  { unfold getOrdinal.
    repeat match goal with
           | |- context [if ?b then _ else _] => destruct b
           end; eexists; reflexivity. }
  unfold getPeriod. destruct (overtimeLeague league); [|now left].
  destruct (Z.eqb_spec p 5); [right; left; now split|].
  destruct (Z.gtb_spec p 5); [right; right; split; [lia | reflexivity]|].
  now left.
Qed.

(** In one league two different periods never get the same label, for
    period numbers among the integers a JavaScript number holds exactly
    (beyond 2^53 the subtraction of the source rounds, and two periods can
    share a label). *)
Theorem getPeriod_injective (league : string) (p q : Z) :
  safeInteger p -> safeInteger q ->
  getPeriod league p = getPeriod league q -> p = q.
Proof.
  intros _ _ E.
  assert (KO : keptChar "O" = false) by reflexivity.
  assert (KL : keptChar "<" = false) by reflexivity.
  assert (KE : keptString "" = true) by reflexivity.
  pose proof (keptString_numToString p) as Kp.
  pose proof (keptString_numToString q) as Kq.
  pose proof (keptString_numToString (p - 4)) as Kp4.
  pose proof (keptString_numToString (q - 4)) as Kq4.
  destruct (getPeriod_shape league p) as [[s Hp]|[[Hp5 Hp]|[Hp5 Hp]]];
    destruct (getPeriod_shape league q) as [[t Hq]|[[Hq5 Hq]|[Hq5 Hq]]];
    rewrite Hp, Hq in E;
    apply kept_prefix_unique in E; try assumption;
    destruct E as (Ea & Ec & Er); try discriminate Ec;
    try (now apply numToString_inj);
    try lia.
  - symmetry in Ea. now apply numToString_nonempty in Ea.
  - now apply numToString_nonempty in Ea.
  - apply numToString_inj in Ea. lia.
Qed.

Lemma getPeriod_injective_witness : 6 = 6.
Proof.
  apply (getPeriod_injective "NBA" 6 6).
  - unfold safeInteger, maxSafeInteger. lia.
  - unfold safeInteger, maxSafeInteger. lia.
  - reflexivity.
Defined.

(** Where there was overtime, the suffix of "Final" is the period label in
    parentheses; and the suffix is empty exactly for a period below 5 or a
    league without overtime labels. *)
Theorem finalOT_is_period (league : string) (p : Z) :
  (supportedLeague league = true -> 5 <= p ->
   getFinalOT league p = " (" ++ getPeriod league p ++ ")")
  /\ (getFinalOT league p = "" <-> supportedLeague league = false \/ p < 5).
Proof.
  unfold getFinalOT, getPeriod. rewrite overtimeLeague_supported.
  destruct (supportedLeague league).
  - destruct (Z.eqb_spec p 5) as [->|N].
    + split; [reflexivity|]. split; [discriminate | intros [H|H]; [discriminate | lia]].
    + destruct (Z.gtb_spec p 5) as [G|G].
      * split.
        -- intros _ _. simpl. now rewrite string_append_assoc.
        -- split; [discriminate | intros [H|H]; [discriminate | lia]].
      * split; [lia|]. split; [intros _; right; lia | reflexivity].
  - split; [discriminate|]. split; [now left | reflexivity].
Qed.

(** Before the first period the label is an ordinal in TH: for a period
    number of 0 or less every league gets the number followed by the markup
    of TH, since the remainder of a negative number is never 1, 2 or 3. *)
Theorem period_not_positive (league : string) (p : Z) :
  p <= 0 ->
  getPeriod league p = JS.numToString p ++ "<sup>TH</sup>".
Proof.
  intros Hp.
  assert (O : getOrdinal p = JS.numToString p ++ "<sup>TH</sup>").
  { unfold getOrdinal.
    pose proof (Z.rem_nonpos p 10 ltac:(lia) Hp) as R.
    destruct (Z.eqb_spec (Z.rem p 10) 1); [lia|].
    destruct (Z.eqb_spec (Z.rem p 10) 2); [lia|].
    destruct (Z.eqb_spec (Z.rem p 10) 3); [lia|]. reflexivity. }
  unfold getPeriod. destruct (overtimeLeague league); [|exact O].
  destruct (Z.eqb_spec p 5); [lia|].
  destruct (Z.gtb_spec p 5); [lia | exact O].
Qed.

Lemma period_not_positive_witness :
  getPeriod "NBA" 0 = "0<sup>TH</sup>".
Proof. apply (period_not_positive "NBA" 0). lia. Defined.

(** ** From the second call on *)

Lemma formatScores_twice_fixed (league : string) (localTZ : TimeZone)
  (data : Data) (teams : option (list string)) :
  Forall (fun game => snd (formatGame league localTZ game) = game)
    (survivingGames data teams) ->
  snd (formatScoresTwice league localTZ data teams)
  = fst (formatScoresTwice league localTZ data teams).
Proof.
  intros H. unfold formatScoresTwice.
  destruct teams as [ts|]; simpl in *.
  - assert (E : map (fun game =>
                       if teamsInclude ts game
                       then snd (formatGame league localTZ game)
                       else game) (events data) = events data).
    { rewrite <- (map_id (events data)) at 2. apply map_ext_in.
      intros game Hin. destruct (teamsInclude ts game) eqn:K; [|reflexivity].
      rewrite Forall_forall in H. apply H.
      apply sort_In, filter_In. now split. }
    now rewrite E.
  - assert (E : map (fun game => snd (formatGame league localTZ game))
                  (JS.sort compareGames (events data))
                = JS.sort compareGames (events data)).
    { rewrite <- (map_id (JS.sort compareGames (events data))) at 2.
      apply map_ext_in. rewrite Forall_forall in H. exact H. }
    rewrite E.
    now rewrite (sort_idempotent compareGames compareGames_total
                   compareGames_trans).
Qed.

Lemma formatGame_twice_unchanged (league : string) (localTZ : TimeZone)
  (game : Game) :
  isSouthDakotaState league (competitor0 (competition game))
  && isSouthDakotaState league (competitor1 (competition game)) = false ->
  snd (formatGame league localTZ (snd (formatGame league localTZ game)))
  = snd (formatGame league localTZ game).
Proof.
  intros H. now rewrite formatGame_again_unless_both.
Qed.

(** Once a feed has been through one call, further calls agree: on the
    feed as the first call left it, a second and a third call with the same
    arguments return the same list.  This holds for every feed in which no
    game has a competitor meeting the condition of the SDSU rule on both
    sides. *)
Theorem formatScores_settles (league : string) (localTZ : TimeZone)
  (data : Data) (teams : option (list string)) :
  (forall game, In game (events data) ->
     isSouthDakotaState league (competitor0 (competition game))
     && isSouthDakotaState league (competitor1 (competition game)) = false) ->
  let data1 := snd (formatScores league localTZ data teams) in
  snd (formatScoresTwice league localTZ data1 teams)
  = fst (formatScoresTwice league localTZ data1 teams).
Proof.
  intros H data1. apply formatScores_twice_fixed, Forall_forall.
  intros g1 Hg1. subst data1.
  destruct teams as [ts|]; simpl in Hg1; apply sort_In in Hg1.
  - apply filter_In in Hg1 as [Hin K]. simpl in Hin.
    apply in_map_iff in Hin as (game & <- & Hin).
    destruct (teamsInclude ts game) eqn:K0.
    + apply formatGame_twice_unchanged. now apply H.
    + rewrite K0 in K. discriminate K.
  - simpl in Hg1. apply in_map_iff in Hg1 as (game & <- & Hin).
    apply sort_In in Hin. apply formatGame_twice_unchanged. now apply H.
Qed.

Lemma formatScores_settles_witness :
  snd (formatScoresTwice "NCAAF" Sample.utc
         (snd (formatScores "NCAAF" Sample.utc Sample.jackrabbitsFeed
                 Sample.followSDSU))
         Sample.followSDSU)
  = fst (formatScoresTwice "NCAAF" Sample.utc
           (snd (formatScores "NCAAF" Sample.utc Sample.jackrabbitsFeed
                   Sample.followSDSU))
           Sample.followSDSU).
Proof.
  apply (formatScores_settles "NCAAF" Sample.utc Sample.jackrabbitsFeed
           Sample.followSDSU).
  intros game [<-|[]]. reflexivity.
Defined.

(** ** The answer to the request *)

(** The callback of [getScores] runs only for an answer without transport
    error, with status 200 and a body that decodes; it is given the list
    [formatScores] makes of the content whenever that content is a feed.
    When the content has no [events] array, [formatScores] throws and the
    callback is not run.  Every failed answer (a transport error, another
    status, a body that does not decode) writes one line to the console and
    runs no callback; a status other than 200 without a transport error is
    logged with the cause "null". *)
Theorem onResponse_outcome (parseJSON : string -> string + Content)
  (now league : string) (teams : option (list string)) (localTZ : TimeZone)
  (response : Response) :
  (forall games,
     onResponse parseJSON now league teams localTZ response = Callback games ->
     r_err response = None
     /\ statusCode response = 200
     /\ exists content, parseJSON (body response) = inr content)
  /\ (forall data,
        r_err response = None -> statusCode response = 200 ->
        parseJSON (body response) = inr (Feed data) ->
        onResponse parseJSON now league teams localTZ response
        = Callback (fst (formatScores league localTZ data teams)))
  /\ (r_err response = None -> statusCode response = 200 ->
      parseJSON (body response) = inr NoEventsArray ->
      onResponse parseJSON now league teams localTZ response
      = TypeErrorThrown)
  /\ (r_err response <> None \/ statusCode response <> 200
      \/ (exists p_err, parseJSON (body response) = inl p_err) ->
      exists line,
        onResponse parseJSON now league teams localTZ response
        = ConsoleLog line)
  /\ (r_err response = None -> statusCode response <> 200 ->
      onResponse parseJSON now league teams localTZ response
      = ConsoleLog ("[MMM-MyScoreboard] " ++ now
                    ++ " ** ERROR ** Couldn't retrieve " ++ league
                    ++ " data for provider ESPN: null")).
Proof.
  unfold onResponse.
  destruct (r_err response) as [e|]; simpl.
  - repeat split; try discriminate.
    intros _. eexists. reflexivity.
  - destruct (Z.eqb_spec (statusCode response) 200) as [S|S].
    + destruct (parseJSON (body response)) as [p_err|[content|]].
      * repeat split; try discriminate; try contradiction.
        intros _. eexists. reflexivity.
      * repeat split; try discriminate; try contradiction.
        -- exact S.
        -- now exists (Feed content).
        -- intros data _ _ [= ->]. reflexivity.
        -- intros [H|[H|[p H]]]; [now contradiction H | contradiction
                                  | discriminate H].
      * repeat split; try discriminate; try contradiction.
        intros [H|[H|[p H]]]; [now contradiction H | contradiction
                               | discriminate H].
    + repeat split; try discriminate; try contradiction.
      intros _. eexists. reflexivity.
Qed.

Lemma onResponse_outcome_witness :
  onResponse sampleDecoder "2-Nov-19 16:05" "NBA" None Sample.utc
    (mkResponse None 404 "Not Found")
  = ConsoleLog
      "[MMM-MyScoreboard] 2-Nov-19 16:05 ** ERROR ** Couldn't retrieve NBA data for provider ESPN: null"
  /\ onResponse sampleDecoder "2-Nov-19 16:05" "NBA" None Sample.utc
       (mkResponse None 200 "feed")
     = Callback (fst (formatScores "NBA" Sample.utc Sample.lakersFeed None))
  /\ onResponse sampleDecoder "2-Nov-19 16:05" "NBA" None Sample.utc
       (mkResponse None 200 "{}")
     = TypeErrorThrown.
Proof.
  split; [|split].
  - apply (proj2 (proj2 (proj2 (proj2
             (onResponse_outcome sampleDecoder "2-Nov-19 16:05" "NBA" None
                Sample.utc (mkResponse None 404 "Not Found")))))).
    + reflexivity.
    + discriminate.
  - apply (proj1 (proj2
             (onResponse_outcome sampleDecoder "2-Nov-19 16:05" "NBA" None
                Sample.utc (mkResponse None 200 "feed")))); reflexivity.
  - apply (proj1 (proj2 (proj2
             (onResponse_outcome sampleDecoder "2-Nov-19 16:05" "NBA" None
                Sample.utc (mkResponse None 200 "{}"))))); reflexivity.
Defined.
